(** * dynatrace-ca-sdm-bridge: the webhook handler of [webhook.go]

    A shallow embedding of the ticket life cycle of [webhook.go]: the
    handler [SDMHandler], the two remote flows [openTicket] and
    [closeTicket] with their SOAP wrappers, the association store kept in
    [storage.json], and the retry loop [try.Do] the handler drives them
    with.

    Conventions of the embedding.
    - A Go [error] is the text its [Error()] method gives.
    - The global [client] is a backend of some state type [W]; every
      [client.Call] is recorded, request first, in the ghost list [wire].
    - [storage.json] is seen through what [os.Open], [ioutil.ReadAll] and
      [json.Unmarshal] make of it (type [File]).  The file system is taken
      to work: [os.Open] fails only when the file is not there, and
      [os.Create] and [ioutil.WriteFile] succeed.
    - A Go map is [nil] or holds entries ([option] of a [gmap]): reading a
      [nil] map finds nothing, assigning to one panics.  A panic ends the
      handler with nothing written to the response; [net/http] recovers it
      and the process goes on.
    - Calls of [logger] and [log] only write to the log; they are left out. *)

From Stdlib Require Import ZArith String List DecimalString Lia.
From stdpp Require Import base option strings list gmap.

Local Open Scope Z_scope.
Local Open Scope string_scope.

(** ** Data types of [webhook.go] *)

Definition Err := string.

Record Config := {
  ListenerPort : Z;
  LogLevel : string;
  SDMWSDL : string;
  SDMUsername : string;
  SDMPassword : string;
}.

Record Problem := {
  Pcat : string;
  ProblemID : string;
  State : string;
  ProblemDetailsText : string;
  ProblemTitle : string;
}.

Record LoginResponse := { LoginReturn : string }.

Record GetHandleForUserIDResponse := { GetHandleForUserIDReturn : string }.

Record CreateRequestResponse := {
  NewRequestHandle : string;
  NewRequestNumber : string;
}.

Record UpdateObjectResponse := { UpdateObjectReturn : string }.

Record Response := {
  Error : bool;
  Message : string;
}.

(** [Problems] is [None] for the [nil] map. *)
Record Storage := { Problems : option (gmap string CreateRequestResponse) }.

#[global] Instance CreateRequestResponse_eq_dec : EqDecision CreateRequestResponse.
Proof. solve_decision. Defined.

#[global] Instance Response_eq_dec : EqDecision Response.
Proof. solve_decision. Defined.

(** [gosoap.Params] is [map[string]interface{}]; the handler stores strings
    and slices of [gosoap.Params] in it. *)
#[local] Unset Elimination Schemes.
Inductive ParamValue :=
| PString (s : string)
| PArray (items : list (gmap string ParamValue)).
#[local] Set Elimination Schemes.

Abbreviation Params := (gmap string ParamValue).

(** One [client.Call(method, params)], as it goes on the wire. *)
Record SoapCall := {
  method : string;
  params : Params;
}.

(** ** Formatting *)

(** The verb [%d] of [fmt.Sprintf] on an [int]. *)
Definition itoa (n : Z) : string := NilZero.string_of_int (Z.to_int n).

(** [needle] occurs in [s] (as [strings.Contains(s, needle)]). *)
Fixpoint contains (s needle : string) : bool :=
  String.prefix needle s ||
  match s with
  | EmptyString => false
  | String _ rest => contains rest needle
  end.

(** ** The package [gopkg.in/matryer/try.v1]

    The handler imports it (line 9) and calls [try.Do]; the package reads

      var MaxRetries = 10
      var errMaxRetriesReached = errors.New("exceeded retry limit")
      type Func func(attempt int) (retry bool, err error)
      func Do(fn Func) error {
        var err error
        var cont bool
        attempt := 1
        for {
          cont, err = fn(attempt)
          if !cont || err == nil { break }
          attempt++
          if attempt > MaxRetries { return errMaxRetriesReached }
        }
        return err
      }

    A [Func] runs on the state [St] it closes over. *)
Module try.
Section Do.
Context {St : Type}.

Definition Func := Z -> St -> (bool * option Err) * St.

Definition errMaxRetriesReached : Err := "exceeded retry limit".

(** The loop of [Do] at the head of an iteration; [left] is how many
    more iterations the test [attempt > MaxRetries] lets through, that is
    [MaxRetries - attempt] (see [loop_unfold]). *)
Fixpoint loop (left : nat) (fn : Func) (attempt : Z) (s : St) : option Err * St :=
  let '((cont, err), s1) := fn attempt s in
  if negb cont || bool_decide (err = None) then (err, s1)
  else match left with
       | O => (Some errMaxRetriesReached, s1)
       | S left' => loop left' fn (attempt + 1) s1
       end.

Definition Do (MaxRetries : Z) (fn : Func) (s : St) : option Err * St :=
  loop (Z.to_nat (MaxRetries - 1)) fn 1 s.
End Do.
End try.

(** ** The backend and the process state *)

(** The global [client *gosoap.Client] in front of a backend of state [W]:
    [Call] makes the round trip and keeps the body, the [Unmarshal_*] are
    [client.Unmarshal] into each of the four response structs. *)
Record SoapClient (W : Type) := {
  Call : string -> Params -> W -> option Err * W;
  Unmarshal_LoginResponse : W -> Err + LoginResponse;
  Unmarshal_GetHandleForUserIDResponse : W -> Err + GetHandleForUserIDResponse;
  Unmarshal_CreateRequestResponse : W -> Err + CreateRequestResponse;
  Unmarshal_UpdateObjectResponse : W -> Err + UpdateObjectResponse;
}.
Arguments Call {W}.
Arguments Unmarshal_LoginResponse {W}.
Arguments Unmarshal_GetHandleForUserIDResponse {W}.
Arguments Unmarshal_CreateRequestResponse {W}.
Arguments Unmarshal_UpdateObjectResponse {W}.

(** [storage.json] as the two storage functions see it: [os.Open] fails
    ([Absent]); the bytes are there and [json.Unmarshal] rejects them
    ([Unparsable], which is also the empty file [os.Create] leaves); they
    decode to a document with its [problems] object ([Document]); or they
    decode, with no error, to a [Storage] whose [Problems] is left [nil]
    ([NilDocument]: the files [{}], [null] and [{"problems": null}]). *)
Inductive File :=
| Absent
| Unparsable
| Document (problems : gmap string CreateRequestResponse)
| NilDocument.

#[global] Instance File_eq_dec : EqDecision File.
Proof. solve_decision. Defined.

Record Process (W : Type) := {
  backend : W;
  wire : list SoapCall;
  storage_json : File;
}.
Arguments backend {W}.
Arguments wire {W}.
Arguments storage_json {W}.

(** What the handler leaves on its [http.ResponseWriter]: the status and
    the encoded [Response] (200 is what [net/http] sends when the body is
    written with no [WriteHeader] before), or a run-time panic. *)
Inductive Served :=
| Wrote (status : Z) (resp : Response)
| Panic (reason : string).

Definition StatusOK : Z := 200.
Definition StatusBadRequest : Z := 400.
Definition StatusInternalServerError : Z := 500.

(** ** The association store (lines 178-237) *)

(** Lines 182-189 and 213-220: open the file, create it when that fails. *)
Definition openOrCreate (f : File) : File :=
  match f with
  | Absent => Unparsable
  | _ => f
  end.

(** Lines 193-198 and 224-229: read and decode; the empty map is put in
    only when the decoding fails. *)
Definition readStorage (f : File) : Storage :=
  match f with
  | Document problems => {| Problems := Some problems |}
  | NilDocument => {| Problems := None |}
  | Absent | Unparsable => {| Problems := Some ∅ |}
  end.

(** Lines 234-235: [json.MarshalIndent] and [ioutil.WriteFile]; a [nil]
    map is written as [null]. *)
Definition writeStorage (st : Storage) : File :=
  match Problems st with
  | Some problems => Document problems
  | None => NilDocument
  end.

(** The closure handed to [try.Do] at lines 119-127 and 149-157: it keeps
    the result of [op] in the variable it captures ([nil] when [op] failed)
    and asks for another attempt exactly when [op] failed. *)
Definition retrying {St A} (op : St -> (Err + A) * St) : try.Func (St := option A * St) :=
  fun attempt '(_, s) =>
    match op s with
    | (inl e, s1) => ((true, Some e), (None, s1))
    | (inr a, s1) => ((false, None), (Some a, s1))
    end.

(** Line 117. *)
Definition title (problem : Problem) : string :=
  "Dynatrace - " +:+ ProblemTitle problem +:+ " (Problem ID: "
  +:+ ProblemID problem +:+ ", State: " +:+ State problem +:+ ")".

Section Engine.
Context {W : Type}.
Variable client : SoapClient W.
Variable config : Config.
Variable MaxRetries : Z.

(** A Go function that returns a result or an [error] and acts on the
    process. *)
Definition M (A : Type) : Type := Process W -> (Err + A) * Process W.

Definition ret {A} (a : A) : M A := fun s => (inr a, s).

Definition bind {A B} (m : M A) (k : A -> M B) : M B :=
  fun s =>
    match m s with
    | (inl e, s1) => (inl e, s1)
    | (inr a, s1) => k a s1
    end.

Notation "x <- m ;; k" := (bind m (fun x => k))
  (at level 100, m at next level, right associativity).

(** [err := client.Call(m, p); if err != nil { return nil, err }] *)
Definition client_Call (m : string) (p : Params) : M unit :=
  fun s =>
    let '(err, w) := Call client m p (backend s) in
    let s1 := {| backend := w;
                 wire := wire s ++ [{| method := m; params := p |}];
                 storage_json := storage_json s |} in
    match err with
    | Some e => (inl e, s1)
    | None => (inr tt, s1)
    end.

(** [err = client.Unmarshal(&r); if err != nil { return nil, err }] *)
Definition client_Unmarshal {A} (decode : W -> Err + A) : M A :=
  fun s => (decode (backend s), s).

Definition getHandle (sid username : string) : M GetHandleForUserIDResponse :=
  let p : Params := <["sid" := PString sid]> (<["userID" := PString username]> ∅) in
  _ <- client_Call "getHandleForUserid" p ;;
  client_Unmarshal (Unmarshal_GetHandleForUserIDResponse client).

Definition login (username password : string) : M LoginResponse :=
  let params : Params :=
    <["username" := PString username]> (<["password" := PString password]> ∅) in
  _ <- client_Call "login" params ;;
  client_Unmarshal (Unmarshal_LoginResponse client).

Definition updateObject (sid objectHandle : string) (attrVals attributes : list Params)
  : M UpdateObjectResponse :=
  let params : Params :=
    <["sid" := PString sid]> (<["objectHandle" := PString objectHandle]>
    (<["attrVals" := PArray attrVals]> (<["attributes" := PArray attributes]> ∅))) in
  _ <- client_Call "updateObject" params ;;
  client_Unmarshal (Unmarshal_UpdateObjectResponse client).

Definition createRequest (sid creatorHandle : string) (attrVals propertyValues : list Params)
    (template : string) (attributes : list Params)
    (newRequestHandle newRequestNumber : string) : M CreateRequestResponse :=
  let params : Params :=
    <["sid" := PString sid]> (<["creatorHandle" := PString creatorHandle]>
    (<["attrVals" := PArray attrVals]> (<["propertyValues" := PArray propertyValues]>
    (<["template" := PString template]> (<["attributes" := PArray attributes]>
    (<["newRequestHandle" := PString newRequestHandle]>
    (<["newRequestNumber" := PString newRequestNumber]> ∅))))))) in
  _ <- client_Call "createRequest" params ;;
  client_Unmarshal (Unmarshal_CreateRequestResponse client).

(** [{"string": v}] *)
Definition str (v : string) : Params := {[ "string" := PString v ]}.

Definition closeTicket (objectHandle : string) : M UpdateObjectResponse :=
  l <- login (SDMUsername config) (SDMPassword config) ;;
  let attrValues := [ str "status"; str "RE";
                      str "rootcause"; str "rc:400174" ] in
  let attributes := [ str "status"; str "rootcause" ] in
  updateObject (LoginReturn l) objectHandle attrValues attributes.

Definition openTicket (description summary pcat : string) : M CreateRequestResponse :=
  l <- login (SDMUsername config) (SDMPassword config) ;;
  h <- getHandle (LoginReturn l) (SDMUsername config) ;;
  let attrs := [ str "customer"; str (GetHandleForUserIDReturn h);
                 str "category"; str ("pcat:" +:+ pcat);
                 str "description"; str description;
                 str "summary"; str summary;
                 str "urgency"; str "2";
                 str "impact"; str "4";
                 str "group"; str "5FA1B7BE4CFA2E4C9B19E115AE49A642";
                 str "type"; str "crt:182" ] in
  createRequest (LoginReturn l) (GetHandleForUserIDReturn h) attrs [] "" [] "" "".

(** Lines 178-207; the lookup at line 200 finds nothing in a [nil] map. *)
Definition getTicketNumberFromStorage (problem : Problem) (s : Process W)
  : option CreateRequestResponse * Process W :=
  let file := openOrCreate (storage_json s) in
  let storage := readStorage file in
  (match Problems storage with
   | Some problems => problems !! ProblemID problem
   | None => None
   end,
   {| backend := backend s; wire := wire s; storage_json := file |}).

(** Lines 209-237; [None] is the panic of the assignment at line 232 on a
    [nil] map, before anything is written. *)
Definition storeNewProblem (problem : Problem) (ticket : CreateRequestResponse)
    (s : Process W) : option (Process W) :=
  let file := openOrCreate (storage_json s) in
  let storage := readStorage file in
  match Problems storage with
  | None => None
  | Some problems =>
      let storage := {| Problems := Some (<[ProblemID problem := ticket]> problems) |} in
      Some {| backend := backend s; wire := wire s; storage_json := writeStorage storage |}
  end.

(** Lines 94-176; [body] is what [decoder.Decode(&problem)] gives. *)
Definition SDMHandler (body : Err + Problem) (s : Process W) : Served * Process W :=
  match body with
  | inl e =>
      (Wrote StatusBadRequest
         {| Error := true;
            Message := "Could not parse the problem from the request body: " +:+ e |}, s)
  | inr problem =>
      if decide (State problem = "OPEN") then
        let '(err, (ticket, s1)) :=
          try.Do MaxRetries
            (retrying (openTicket (ProblemDetailsText problem) (title problem) (Pcat problem)))
            (None, s) in
        match err, ticket with
        | Some e, _ =>
            (Wrote StatusInternalServerError
               {| Error := true;
                  Message := "Could not open ticket after " +:+ itoa MaxRetries
                             +:+ " tries, error: " +:+ e |}, s1)
        | None, Some ticket =>
            let resp := {| Error := false;
                           Message := "Opened ticket: " +:+ NewRequestNumber ticket |} in
            match storeNewProblem problem ticket s1 with
            | Some s2 => (Wrote StatusOK resp, s2)
            | None => (Panic "assignment to entry in nil map", s1)
            end
        | None, None => (Panic "nil pointer dereference", s1)
        end
      else if decide (State problem = "RESOLVED") then
        let '(ticket, s1) := getTicketNumberFromStorage problem s in
        match ticket with
        | Some ticket =>
            let '(err, (_, s2)) :=
              try.Do MaxRetries (retrying (closeTicket (NewRequestHandle ticket))) (None, s1) in
            match err with
            | Some e =>
                (Wrote StatusInternalServerError
                   {| Error := true;
                      Message := "Could not close ticket " +:+ NewRequestNumber ticket
                                 +:+ " after " +:+ itoa MaxRetries
                                 +:+ " tries, error: " +:+ e |}, s2)
            | None =>
                (Wrote StatusOK
                   {| Error := false;
                      Message := "Closed ticket: " +:+ NewRequestNumber ticket |}, s2)
            end
        | None => (Wrote StatusOK {| Error := false; Message := "" |}, s1)
        end
      else (Wrote StatusOK {| Error := false; Message := "" |}, s)
  end.
End Engine.

(** ** Start-up (lines 470-515)

    [main] reads [config.json] into the global [config], sets the log level,
    sets [try.MaxRetries] and builds the global [client]; each of the first,
    second and last step ends the process when it fails. *)
Record Server (W : Type) := {
  srv_config : Config;
  srv_MaxRetries : Z;
  srv_client : SoapClient W;
}.
Arguments srv_config {W}.
Arguments srv_MaxRetries {W}.
Arguments srv_client {W}.

Section Main.
Context {W : Type}.
(** [logging.LogLevel] and [gosoap.SoapClient], of the two libraries. *)
Variable logging_LogLevel : string -> option Err.
Variable gosoap_SoapClient : string -> Err + SoapClient W.

(** [config_json] is what [json.Unmarshal] makes of [config.json]; [None]
    is the process ended by [logger.Fatalf]. *)
Definition main (config_json : Err + Config) : option (Server W) :=
  match config_json with
  | inl _ => None
  | inr config =>
      match logging_LogLevel (LogLevel config) with
      | Some _ => None
      | None =>
          let MaxRetries := 50 in
          match gosoap_SoapClient (SDMWSDL config) with
          | inl _ => None
          | inr client =>
              Some {| srv_config := config; srv_MaxRetries := MaxRetries;
                      srv_client := client |}
          end
      end
  end.
End Main.

(** The route [/sdm] of a started server. *)
Definition serve {W} (srv : Server W) : Err + Problem -> Process W -> Served * Process W :=
  SDMHandler (srv_client srv) (srv_config srv) (srv_MaxRetries srv).

(** ** Vocabulary of the statements *)

(** The problemID-to-ticket mapping the store holds (none in a [nil]
    map). *)
Definition mapping (f : File) : gmap string CreateRequestResponse :=
  default ∅ (Problems (readStorage f)).

(** The process after a call of [storeNewProblem], whether it returned or
    panicked. *)
Definition after_store {W} (problem : Problem) (ticket : CreateRequestResponse)
    (s : Process W) : Process W :=
  default s (storeNewProblem problem ticket s).

(** The state after [k] invocations of [op] in a row that all failed;
    [None] when one of them succeeded. *)
Fixpoint after_failures {St A} (op : St -> (Err + A) * St) (k : nat) (s : St) : option St :=
  match k with
  | O => Some s
  | S k' =>
      match op s with
      | (inl _, s1) => after_failures op k' s1
      | (inr _, _) => None
      end
  end.

(** [op] with a counter of its invocations next to its state. *)
Definition counted {St A} (op : St -> (Err + A) * St) : St * nat -> (Err + A) * (St * nat) :=
  fun '(s, n) => let '(r, s1) := op s in (r, (s1, S n)).

(** The bound on attempts can be chosen through the configuration. *)
Definition bound_configurable : Prop :=
  exists (lvl : string -> option Err) (mk : string -> Err + SoapClient unit)
         (c1 c2 : Config) (srv1 srv2 : Server unit),
    main lvl mk (inr c1) = Some srv1 /\
    main lvl mk (inr c2) = Some srv2 /\
    srv_MaxRetries srv1 <> srv_MaxRetries srv2.

(** The errors of the first [k] invocations of [op] in a row, up to the
    first that succeeds. *)
Fixpoint errors_of {St A} (op : St -> (Err + A) * St) (k : nat) (s : St) : list Err :=
  match k with
  | O => []
  | S k' =>
      match op s with
      | (inl e, s1) => e :: errors_of op k' s1
      | (inr _, _) => []
      end
  end.

(** [attrVals] as the backend wants them: the name and the value of each
    attribute, one single-key record each, in the order given. *)
Definition alternating (attrs : list (string * string)) : list Params :=
  flat_map (fun '(name, value) => [ {[ "string" := PString name ]};
                                    {[ "string" := PString value ]} ]) attrs.

(** The four requests of the remote protocol, as the flows must send them. *)
Definition login_request (config : Config) : SoapCall :=
  {| method := "login";
     params := list_to_map [ ("username", PString (SDMUsername config));
                             ("password", PString (SDMPassword config)) ] |}.

Definition getHandleForUserid_request (config : Config) (sid : string) : SoapCall :=
  {| method := "getHandleForUserid";
     params := list_to_map [ ("sid", PString sid);
                             ("userID", PString (SDMUsername config)) ] |}.

Definition createRequest_request (sid handle pcat details summary : string) : SoapCall :=
  {| method := "createRequest";
     params := list_to_map
       [ ("sid", PString sid);
         ("creatorHandle", PString handle);
         ("attrVals", PArray (alternating
            [ ("customer", handle);
              ("category", "pcat:" +:+ pcat);
              ("description", details);
              ("summary", summary);
              ("urgency", "2");
              ("impact", "4");
              ("group", "5FA1B7BE4CFA2E4C9B19E115AE49A642");
              ("type", "crt:182") ]));
         ("propertyValues", PArray []);
         ("template", PString "");
         ("attributes", PArray []);
         ("newRequestHandle", PString "");
         ("newRequestNumber", PString "") ] |}.

Definition updateObject_request (sid objectHandle : string) : SoapCall :=
  {| method := "updateObject";
     params := list_to_map
       [ ("sid", PString sid);
         ("objectHandle", PString objectHandle);
         ("attrVals", PArray (alternating [ ("status", "RE"); ("rootcause", "rc:400174") ]));
         ("attributes", PArray [ {[ "string" := PString "status" ]};
                                 {[ "string" := PString "rootcause" ]} ]) ] |}.

(** A call that is not a login and goes out under the session [sid]. *)
Definition under_session (sid : string) (c : SoapCall) : Prop :=
  method c <> "login" /\ params c !! "sid" = Some (PString sid).

(** The process after the call [c] went to the backend, and after each
    call of a list did, first to last. *)
Definition send {W} (client : SoapClient W) (c : SoapCall) (s : Process W) : Process W :=
  snd (client_Call client (method c) (params c) s).

Definition send_all {W} (client : SoapClient W) (calls : list SoapCall) (s : Process W)
  : Process W :=
  foldl (fun st c => send client c st) s calls.

(** From [s] to [s'] the process made one attempt: it sent a login and
    then, when that login gave a session, only calls under that session;
    nothing else happened. *)
Definition attempt_of {W} (client : SoapClient W) (config : Config)
    (s s' : Process W) : Prop :=
  exists rest,
    s' = send_all client (login_request config :: rest) s /\
    match login client (SDMUsername config) (SDMPassword config) s with
    | (inr l, _) => Forall (under_session (LoginReturn l)) rest
    | (inl _, _) => rest = []
    end.

(** Nothing went to the backend between [s] and [s']. *)
Definition quiet {W} (s s' : Process W) : Prop :=
  backend s' = backend s /\ wire s' = wire s.

(** What the backend knows of the process: its own state and the calls
    that went to it. *)
Definition remote {W} (s : Process W) : W * list SoapCall := (backend s, wire s).

(** The backend after it answered the calls, first to last; by the client
    alone. *)
Definition answered {W} (client : SoapClient W) (calls : list SoapCall) (w : W) : W :=
  foldl (fun w c => snd (Call client (method c) (params c) w)) w calls.

(** The session a login sent to the backend [w] opens: what the answer
    decodes to, when the call goes through and the answer decodes. *)
Definition session_at {W} (client : SoapClient W) (config : Config) (w : W) : option string :=
  match Call client (method (login_request config)) (params (login_request config)) w with
  | (Some _, _) => None
  | (None, w1) =>
      match Unmarshal_LoginResponse client w1 with
      | inl _ => None
      | inr l => Some (LoginReturn l)
      end
  end.

(** The handle the backend [w] answers [getHandleForUserid] under [sid]
    with, when the call goes through and the answer decodes. *)
Definition handle_at {W} (client : SoapClient W) (config : Config) (sid : string) (w : W)
  : option string :=
  let c := getHandleForUserid_request config sid in
  match Call client (method c) (params c) w with
  | (Some _, _) => None
  | (None, w1) =>
      match Unmarshal_GetHandleForUserIDResponse client w1 with
      | inl _ => None
      | inr h => Some (GetHandleForUserIDReturn h)
      end
  end.

(** The requests the create flow owes a backend in state [w], by the
    answers of that backend alone: the login; when it opens a session, the
    [getHandleForUserid] under it; when that gives a handle, the
    [createRequest] under the session and for the handle. *)
Definition create_calls {W} (client : SoapClient W) (config : Config)
    (pcat details summary : string) (w : W) : list SoapCall :=
  login_request config ::
  match session_at client config w with
  | None => []
  | Some sid =>
      getHandleForUserid_request config sid ::
      match handle_at client config sid (answered client [login_request config] w) with
      | None => []
      | Some handle => [ createRequest_request sid handle pcat details summary ]
      end
  end.

(** The requests the close flow owes: the login and, when it opens a
    session, the [updateObject] under it. *)
Definition close_calls {W} (client : SoapClient W) (config : Config)
    (objectHandle : string) (w : W) : list SoapCall :=
  login_request config ::
  match session_at client config w with
  | None => []
  | Some sid => [ updateObject_request sid objectHandle ]
  end.

(** One attempt, as the backend sees it: the login is the first call to
    arrive; when it opens a session, one or two calls follow, none of them a
    login, each under that session; when it opens none, no call follows. *)
Definition fresh_attempt {W} (client : SoapClient W) (config : Config)
    (r r' : W * list SoapCall) : Prop :=
  exists rest,
    r' = (answered client (login_request config :: rest) (fst r),
          (snd r ++ login_request config :: rest)%list) /\
    match session_at client config (fst r) with
    | Some sid => Forall (under_session sid) rest /\ (1 <= length rest <= 2)%nat
    | None => rest = []
    end.

(** [n] attempts in a row and no other call. *)
Inductive fresh_attempts {W} (client : SoapClient W) (config : Config)
  : nat -> W * list SoapCall -> W * list SoapCall -> Prop :=
| fresh_attempts_O r : fresh_attempts client config O r r
| fresh_attempts_S n r r1 r' :
    fresh_attempt client config r r1 -> fresh_attempts client config n r1 r' ->
    fresh_attempts client config (S n) r r'.

(** The event asks for a remote flow: it is an OPEN event, or a RESOLVED
    event whose problemID the store knows. *)
Definition flow_due (body : Err + Problem) (f : File) : Prop :=
  exists problem,
    body = inr problem /\
    (State problem = "OPEN" \/
     (State problem = "RESOLVED" /\ is_Some (mapping f !! ProblemID problem))).

(** An operation that fails whenever it is invoked. *)
Definition always_fails : unit -> (Err + unit) * unit :=
  fun _ => (inl "connection refused", tt).

(** ** Backends for the examples *)

(** A backend that has answered [n] calls so far; its [n]-th call fails with
    [connection refused] when [failing n], and otherwise the session is
    [SID-n], the handle [cnt:42] and the ticket [H1]/[INC001]. *)
Definition scripted (failing : nat -> bool) : SoapClient nat := {|
  Call := fun _ _ n => (if failing n then Some "connection refused" else None, S n);
  Unmarshal_LoginResponse := fun n => inr {| LoginReturn := "SID-" +:+ itoa (Z.of_nat n) |};
  Unmarshal_GetHandleForUserIDResponse := fun _ => inr {| GetHandleForUserIDReturn := "cnt:42" |};
  Unmarshal_CreateRequestResponse :=
    fun _ => inr {| NewRequestHandle := "H1"; NewRequestNumber := "INC001" |};
  Unmarshal_UpdateObjectResponse := fun _ => inr {| UpdateObjectReturn := "1" |};
|}.

Definition healthy : SoapClient nat := scripted (fun _ => false).
Definition down : SoapClient nat := scripted (fun _ => true).
Definition flaky (k : nat) : SoapClient nat := scripted (fun n => bool_decide (n < k)%nat).

Definition cfg0 : Config :=
  {| ListenerPort := 8080; LogLevel := "INFO"; SDMWSDL := "http://sdm/wsdl";
     SDMUsername := "dynatrace"; SDMPassword := "secret" |}.

Definition boot (file : File) : Process nat :=
  {| backend := O; wire := []; storage_json := file |}.

Definition P1_open : Problem :=
  {| Pcat := "400373"; ProblemID := "P1"; State := "OPEN";
     ProblemDetailsText := "disk at 95%"; ProblemTitle := "Disk full" |}.

Definition P1_resolved : Problem :=
  {| Pcat := ""; ProblemID := "P1"; State := "RESOLVED";
     ProblemDetailsText := ""; ProblemTitle := "" |}.

Definition P2_resolved : Problem :=
  {| Pcat := ""; ProblemID := "P2"; State := "RESOLVED";
     ProblemDetailsText := ""; ProblemTitle := "" |}.

Definition P3_merged : Problem :=
  {| Pcat := ""; ProblemID := "P3"; State := "MERGED";
     ProblemDetailsText := ""; ProblemTitle := "" |}.

Definition INC001 : CreateRequestResponse :=
  {| NewRequestHandle := "H1"; NewRequestNumber := "INC001" |}.

(** The create flow of the event [P1_open] and the close flow of its
    ticket, against a backend of the examples. *)
Definition open_P1 (client : SoapClient nat)
  : Process nat -> (Err + CreateRequestResponse) * Process nat :=
  openTicket client cfg0 (ProblemDetailsText P1_open) (title P1_open) (Pcat P1_open).

Definition close_H1 (client : SoapClient nat)
  : Process nat -> (Err + UpdateObjectResponse) * Process nat :=
  closeTicket client cfg0 "H1".

(** The state [k] failed invocations of [op] lead to. *)
Definition state_after {St A} (op : St -> (Err + A) * St) (k : nat) (s : St) : St :=
  default s (after_failures op k s).

(** ** Sequences of events and what is counted on the wire *)

(** The process with [f] for its [storage.json]. *)
Definition with_storage {W} (f : File) (s : Process W) : Process W :=
  {| backend := backend s; wire := wire s; storage_json := f |}.

(** The logins among the calls. *)
Definition logins (calls : list SoapCall) : nat :=
  length (filter (fun c => method c = "login") calls).

(** The requests of [bodies] served one after the other. *)
Definition serve_all {W} (client : SoapClient W) (config : Config) (MaxRetries : Z)
    (bodies : list (Err + Problem)) (s : Process W) : Process W :=
  foldl (fun st body => snd (SDMHandler client config MaxRetries body st)) s bodies.

(** The number of iterations [try.Do] makes at most. *)
Definition attempts_bound (MaxRetries : Z) : nat := Z.to_nat (Z.max 1 MaxRetries).

(** One round trip for the request [c]: the call, and the decoding of its
    answer when the call went through. *)
Definition exchange {W A} (client : SoapClient W) (c : SoapCall) (decode : W -> Err + A)
  : Process W -> (Err + A) * Process W :=
  fun s =>
    (match Call client (method c) (params c) (backend s) with
     | (Some e, _) => inl e
     | (None, w) => decode w
     end, send client c s).

(** ** The earlier revision of the handler ([part_000])

    The file has no association store and no close flow: every request that
    decodes opens a ticket, under the fixed user [testedeconformidade] and the
    fixed category [pcat:400373].  [login], [getHandle] and the body of
    [createRequest] are those of [webhook.go]; [Problem] has no [Pcat] and
    [CreateRequestResponse] one more field. *)
Module part_000.

Record Problem := {
  ProblemID : string;
  State : string;
  ProblemDetailsText : string;
  ProblemTitle : string;
}.

Record CreateRequestResponse := {
  CreateRequestReturn : string;
  NewRequestHandle : string;
  NewRequestNumber : string;
}.

(** Line 106. *)
Definition title (problem : Problem) : string :=
  "Dynatrace - " +:+ ProblemTitle problem +:+ " (Problem ID: "
  +:+ ProblemID problem +:+ ", State: " +:+ State problem +:+ ")".

Section Engine.
Context {W : Type}.
Variable client : SoapClient W.
(** [client.Unmarshal] into the response struct of this revision. *)
Variable Unmarshal_CreateRequestResponse : W -> Err + CreateRequestResponse.
Variable config : Config.
Variable MaxRetries : Z.

(** Lines 177-210. *)
Definition createRequest (sid creatorHandle : string) (attrVals propertyValues : list Params)
    (template : string) (attributes : list Params)
    (newRequestHandle newRequestNumber : string) : M CreateRequestResponse :=
  let params : Params :=
    <["sid" := PString sid]> (<["creatorHandle" := PString creatorHandle]>
    (<["attrVals" := PArray attrVals]> (<["propertyValues" := PArray propertyValues]>
    (<["template" := PString template]> (<["attributes" := PArray attributes]>
    (<["newRequestHandle" := PString newRequestHandle]>
    (<["newRequestNumber" := PString newRequestNumber]> ∅))))))) in
  bind (client_Call client "createRequest" params)
       (fun _ => client_Unmarshal Unmarshal_CreateRequestResponse).

(** Lines 212-278. *)
Definition openTicket (description summary : string) : M CreateRequestResponse :=
  bind (login client (SDMUsername config) (SDMPassword config)) (fun l =>
  bind (getHandle client (LoginReturn l) "testedeconformidade") (fun h =>
  let attrs := [ str "customer"; str (GetHandleForUserIDReturn h);
                 str "category"; str "pcat:400373";
                 str "description"; str description;
                 str "summary"; str summary;
                 str "urgency"; str "2";
                 str "impact"; str "4";
                 str "group"; str "5FA1B7BE4CFA2E4C9B19E115AE49A642";
                 str "type"; str "crt:182" ] in
  createRequest (LoginReturn l) (GetHandleForUserIDReturn h) attrs [] "" [] "" "")).

(** Lines 85-134. *)
Definition SDMHandler (body : Err + Problem) (s : Process W) : Served * Process W :=
  match body with
  | inl e =>
      (Wrote StatusBadRequest
         {| Error := true;
            Message := "Could not parse the problem from the request body: " +:+ e |}, s)
  | inr problem =>
      let '(err, (ticket, s1)) :=
        try.Do MaxRetries
          (retrying (openTicket (ProblemDetailsText problem) (title problem)))
          (None, s) in
      match err, ticket with
      | Some e, _ =>
          (Wrote StatusInternalServerError
             {| Error := true;
                Message := "Could not open ticket after " +:+ itoa MaxRetries
                           +:+ " tries, error: " +:+ e |}, s1)
      | None, Some ticket =>
          (Wrote StatusOK
             {| Error := false;
                Message := "Opened ticket: " +:+ NewRequestNumber ticket |}, s1)
      | None, None => (Panic "nil pointer dereference", s1)
      end
  end.
End Engine.
End part_000.

(** * Properties *)

(** ** The retry loop *)

Section TryFacts.
Context {St : Type}.
Implicit Types fn : try.Func (St := St).

(** [try.loop] is the body of the [for] of [Do]: one call of [fn], the
    [break], the increment and the test against [MaxRetries]. *)
Lemma loop_unfold MaxRetries fn attempt s :
  try.loop (Z.to_nat (MaxRetries - attempt)) fn attempt s =
    let '((cont, err), s1) := fn attempt s in
    if negb cont || bool_decide (err = None) then (err, s1)
    else if attempt + 1 >? MaxRetries then (Some try.errMaxRetriesReached, s1)
    else try.loop (Z.to_nat (MaxRetries - (attempt + 1))) fn (attempt + 1) s1.
Proof.
  destruct (Z.to_nat (MaxRetries - attempt)) as [|n] eqn:Hn; simpl;
    destruct (fn attempt s) as [[cont err] s1];
    destruct (negb cont || bool_decide (err = None)); try reflexivity.
  - destruct (Z.gtb_spec (attempt + 1) MaxRetries); [reflexivity | lia].
  - destruct (Z.gtb_spec (attempt + 1) MaxRetries); [lia|].
    replace (Z.to_nat (MaxRetries - (attempt + 1))) with n by lia. reflexivity.
Qed.

Lemma Do_unfold MaxRetries fn s :
  try.Do MaxRetries fn s = try.loop (Z.to_nat (MaxRetries - 1)) fn 1 s.
Proof. reflexivity. Qed.
End TryFacts.

Section RetryFacts.
Context {St A : Type}.
Variable op : St -> (Err + A) * St.

Lemma after_failures_S k s :
  after_failures op (S k) s =
    match op s with
    | (inl _, s1) => after_failures op k s1
    | (inr _, _) => None
    end.
Proof. reflexivity. Qed.

(** A relation every invocation of [op] respects holds across any number
    of failed invocations. *)
Lemma after_failures_respects (R : St -> St -> Prop) k s sk :
  (forall x, R x x) -> (forall x y z, R x y -> R y z -> R x z) ->
  (forall x, R x (snd (op x))) ->
  after_failures op k s = Some sk -> R s sk.
Proof.
  intros Hrefl Htrans Hstep. revert s.
  induction k as [|k IH]; intros s Hk.
  - injection Hk as ->. apply Hrefl.
  - rewrite after_failures_S in Hk. pose proof (Hstep s) as H1.
    destruct (op s) as [[e|a] s1]; [|discriminate].
    eapply Htrans; [exact H1|]. apply IH, Hk.
Qed.

(** What the loop does with the handler's closure, in full: [op] fails
    [k] times; then either it succeeds, and the loop stops there with the
    result in the captured variable, or [k] was the last iteration the
    bound lets through, [op] fails once more and the loop gives the error
    of the package. *)
Lemma loop_retrying left attempt r0 s :
  exists k sk,
    (k <= left)%nat /\ after_failures op k s = Some sk /\
    ((exists a s', op sk = (inr a, s') /\
        try.loop left (retrying op) attempt (r0, s) = (None, (Some a, s'))) \/
     (k = left /\ exists e s', op sk = (inl e, s') /\
        try.loop left (retrying op) attempt (r0, s)
        = (Some try.errMaxRetriesReached, (None, s')))).
Proof.
  revert attempt r0 s. induction left as [|left IH]; intros attempt r0 s.
  - exists O, s. split; [lia|]. split; [reflexivity|].
    simpl. destruct (op s) as [[e|a] s1]; simpl; [right|left]; eauto 10.
  - simpl. destruct (op s) as [[e|a] s1] eqn:Hop; simpl.
    + destruct (IH (attempt + 1) None s1) as (k & sk & Hle & Hk & Hres).
      exists (S k), sk. split; [lia|]. split.
      { rewrite after_failures_S, Hop. exact Hk. }
      destruct Hres as [Hok | [-> Hex]]; [left | right]; auto.
    + exists O, s. split; [lia|]. split; [reflexivity|].
      left. exists a, s1. auto.
Qed.

Lemma loop_retrying_success left attempt r0 k s sk a s' :
  (k <= left)%nat -> after_failures op k s = Some sk -> op sk = (inr a, s') ->
  try.loop left (retrying op) attempt (r0, s) = (None, (Some a, s')).
Proof.
  revert left attempt r0 s. induction k as [|k IH]; intros left attempt r0 s Hle Hk Hop.
  - injection Hk as ->. destruct left; simpl; rewrite Hop; reflexivity.
  - rewrite after_failures_S in Hk.
    destruct left as [|left]; [lia|]. simpl.
    destruct (op s) as [[e|a0] s1]; [|discriminate]. simpl.
    apply IH with (left := left); [lia | exact Hk | exact Hop].
Qed.

Lemma loop_retrying_exhausted left attempt r0 s s' :
  after_failures op (S left) s = Some s' ->
  try.loop left (retrying op) attempt (r0, s)
  = (Some try.errMaxRetriesReached, (None, s')).
Proof.
  revert attempt r0 s. induction left as [|left IH]; intros attempt r0 s Hk.
  - simpl in *. destruct (op s) as [[e|a] s1]; [|discriminate].
    injection Hk as ->. reflexivity.
  - rewrite after_failures_S in Hk. simpl.
    destruct (op s) as [[e|a] s1]; [|discriminate]. simpl.
    apply IH, Hk.
Qed.

Lemma Do_retrying_success MaxRetries r0 k s sk a s' :
  Z.of_nat k < MaxRetries ->
  after_failures op k s = Some sk -> op sk = (inr a, s') ->
  try.Do MaxRetries (retrying op) (r0, s) = (None, (Some a, s')).
Proof.
  intros Hlt Hk Hop. unfold try.Do.
  apply loop_retrying_success with (k := k) (sk := sk); [lia | exact Hk | exact Hop].
Qed.

Lemma Do_retrying_exhausted MaxRetries r0 s s' :
  1 <= MaxRetries ->
  after_failures op (Z.to_nat MaxRetries) s = Some s' ->
  try.Do MaxRetries (retrying op) (r0, s)
  = (Some try.errMaxRetriesReached, (None, s')).
Proof.
  intros Hge Hk. unfold try.Do. apply loop_retrying_exhausted.
  replace (S (Z.to_nat (MaxRetries - 1))) with (Z.to_nat MaxRetries) by lia.
  exact Hk.
Qed.

(** The two ways [try.Do] ends on the handler's closure. *)
Lemma Do_retrying_cases MaxRetries r0 s :
  (exists a s', try.Do MaxRetries (retrying op) (r0, s) = (None, (Some a, s'))) \/
  (exists s', try.Do MaxRetries (retrying op) (r0, s)
              = (Some try.errMaxRetriesReached, (None, s'))).
Proof.
  unfold try.Do.
  destruct (loop_retrying (Z.to_nat (MaxRetries - 1)) 1 r0 s)
    as (k & sk & _ & _ & [(a & s' & _ & H) | (_ & e & s' & _ & H)]); eauto.
Qed.

(** A relation every invocation of [op] respects holds across [try.Do]. *)
Lemma loop_retrying_respects (R : St -> St -> Prop) left attempt r0 s :
  (forall x y z, R x y -> R y z -> R x z) ->
  (forall x, R x (snd (op x))) ->
  R s (snd (snd (try.loop left (retrying op) attempt (r0, s)))).
Proof.
  intros Htrans Hstep.
  revert attempt r0 s. induction left as [|left IH]; intros attempt r0 s.
  - simpl. pose proof (Hstep s) as H1.
    destruct (op s) as [[e|a] s1]; exact H1.
  - simpl. pose proof (Hstep s) as H1.
    destruct (op s) as [[e|a] s1]; simpl; [|exact H1].
    eapply Htrans; [exact H1 | apply IH].
Qed.

Lemma Do_retrying_respects (R : St -> St -> Prop) MaxRetries r0 s :
  (forall x y z, R x y -> R y z -> R x z) ->
  (forall x, R x (snd (op x))) ->
  R s (snd (snd (try.Do MaxRetries (retrying op) (r0, s)))).
Proof. intros. unfold try.Do. apply loop_retrying_respects; assumption. Qed.
End RetryFacts.

Section CountedFacts.
Context {St A : Type}.
Variable op : St -> (Err + A) * St.

Lemma after_failures_counted k s sk n :
  after_failures op k s = Some sk ->
  after_failures (counted op) k (s, n) = Some (sk, (n + k)%nat).
Proof.
  revert s n. induction k as [|k IH]; intros s n Hk.
  - injection Hk as ->. simpl. f_equal. f_equal. lia.
  - simpl in *. destruct (op s) as [[e|a] s1]; [|discriminate].
    rewrite (IH s1 (S n) Hk). f_equal. f_equal. lia.
Qed.

Lemma counted_success sk n a s' :
  op sk = (inr a, s') -> counted op (sk, n) = (inr a, (s', S n)).
Proof. intros H. simpl. rewrite H. reflexivity. Qed.
End CountedFacts.

(** ** Start-up and the bound on attempts *)

Lemma main_started {W} lvl (mk : string -> Err + SoapClient W) config_json srv :
  main lvl mk config_json = Some srv ->
  exists config client,
    config_json = inr config /\ lvl (LogLevel config) = None /\
    mk (SDMWSDL config) = inr client /\
    srv = {| srv_config := config; srv_MaxRetries := 50; srv_client := client |}.
Proof.
  unfold main. intros H.
  destruct config_json as [e|config]; [discriminate|].
  destruct (lvl (LogLevel config)) eqn:Hlvl; [discriminate|].
  destruct (mk (SDMWSDL config)) as [e|client] eqn:Hmk; [discriminate|].
  injection H as <-. eauto 10.
Qed.

(** C2.  Whatever the operation: when it fails on its first [k]
    invocations, [k < MaxRetries], and succeeds on the next, [try.Do]
    returns no error, the captured variable holds the result and the
    operation has been invoked [k + 1] times; when the operation fails on
    each of its first [MaxRetries] invocations, for a bound of at least one
    attempt, [try.Do] returns the error of the package and the operation
    has been invoked [MaxRetries] times, the count the handler reports.  The
    bound of a server that [main] started is 50: an operation that fails 50
    times in a row under it is invoked 50 times. *)
Theorem retry_policy {St A} (op : St -> (Err + A) * St) (MaxRetries : Z) (s : St) :
  (forall k sk a s',
      Z.of_nat k < MaxRetries ->
      after_failures op k s = Some sk -> op sk = (inr a, s') ->
      try.Do MaxRetries (retrying (counted op)) (None, (s, O))
      = (None, (Some a, (s', S k)))) /\
  (forall s',
      1 <= MaxRetries ->
      after_failures op (Z.to_nat MaxRetries) s = Some s' ->
      try.Do MaxRetries (retrying (counted op)) (None, (s, O))
      = (Some try.errMaxRetriesReached, (None, (s', Z.to_nat MaxRetries)))) /\
  (forall W lvl (mk : string -> Err + SoapClient W) config_json srv s',
      main lvl mk config_json = Some srv ->
      after_failures op 50 s = Some s' ->
      try.Do (srv_MaxRetries srv) (retrying (counted op)) (None, (s, O))
      = (Some try.errMaxRetriesReached, (None, (s', 50%nat)))).
Proof.
  split; [|split].
  - intros k sk a s' Hlt Hk Hop.
    apply Do_retrying_success with (k := k) (sk := (sk, k)); [exact Hlt | |].
    + apply (after_failures_counted op k s sk O Hk).
    + apply counted_success, Hop.
  - intros s' Hge Hk.
    apply Do_retrying_exhausted; [exact Hge|].
    apply (after_failures_counted op _ s s' O Hk).
  - intros W lvl mk config_json srv s' Hmain Hk.
    destruct (main_started _ _ _ _ Hmain) as (config & client & _ & _ & _ & ->).
    cbn [srv_MaxRetries].
    apply Do_retrying_exhausted; [lia|].
    change (Z.to_nat 50) with 50%nat.
    apply (after_failures_counted op _ s s' O Hk).
Qed.

(** An operation that fails twice and then succeeds, under a bound of five,
    and one that always fails, under a bound of three. *)
Lemma retry_policy_witness :
  try.Do 5 (retrying (counted (fun n : nat =>
              if bool_decide (n < 2)%nat then (inl "busy", S n) else (inr n, S n))))
    (None, (O, O)) = (None, (Some 2%nat, (3%nat, 3%nat))) /\
  try.Do 3 (retrying (counted always_fails)) (None, (tt, O))
  = (Some try.errMaxRetriesReached, (None, (tt, 3%nat))).
Proof.
  split.
  - apply (proj1 (retry_policy
                    (fun n : nat =>
                       if bool_decide (n < 2)%nat then (inl "busy", S n) else (inr n, S n))
                    5 O) 2%nat 2%nat 2%nat 3%nat); [lia | reflexivity | reflexivity].
  - apply (proj1 (proj2 (retry_policy always_fails 3 tt)) tt); [lia | reflexivity].
Defined.

(** C4 (as amended).  The bound on attempts is a constant of the process,
    the same for every call: whatever [config.json] holds, a server that
    starts keeps the configuration it read and has [try.MaxRetries = 50],
    and that is the bound its handler runs both flows with.  The bound is
    set by [main], not read from the configuration. *)
Theorem retry_bound_is_fixed {W} lvl (mk : string -> Err + SoapClient W) config_json srv :
  main lvl mk config_json = Some srv ->
  config_json = inr (srv_config srv) /\
  srv_MaxRetries srv = 50 /\
  serve srv = SDMHandler (srv_client srv) (srv_config srv) 50.
Proof.
  intros H. destruct (main_started _ _ _ _ H) as (config & client & -> & _ & _ & ->).
  repeat split.
Qed.

Lemma retry_bound_is_fixed_witness :
  main (fun _ => None) (fun _ => inr healthy) (inr cfg0)
  = Some {| srv_config := cfg0; srv_MaxRetries := 50; srv_client := healthy |} /\
  srv_MaxRetries {| srv_config := cfg0; srv_MaxRetries := 50; srv_client := healthy |} = 50.
Proof.
  split; [reflexivity|].
  apply (retry_bound_is_fixed (fun _ => None) (fun _ => inr healthy) (inr cfg0)
           {| srv_config := cfg0; srv_MaxRetries := 50; srv_client := healthy |}).
  reflexivity.
Defined.

(** C4, as stated: no two configurations start servers with different
    bounds, so the bound is not taken from the configuration. *)
Lemma retry_bound_not_configurable : ~ bound_configurable.
Proof.
  intros (lvl & mk & c1 & c2 & srv1 & srv2 & H1 & H2 & Hne).
  destruct (main_started _ _ _ _ H1) as (? & ? & _ & _ & _ & ->).
  destruct (main_started _ _ _ _ H2) as (? & ? & _ & _ & _ & ->).
  apply Hne. reflexivity.
Qed.

(** ** The association store *)

Lemma openOrCreate_mapping f : mapping (openOrCreate f) = mapping f.
Proof. destruct f; reflexivity. Qed.

Lemma readStorage_openOrCreate f : readStorage (openOrCreate f) = readStorage f.
Proof. destruct f; reflexivity. Qed.

Section StoreFacts.
Context {W : Type}.
Implicit Types (s : Process W) (problem : Problem) (ticket : CreateRequestResponse).

Lemma getTicketNumberFromStorage_result problem s :
  fst (getTicketNumberFromStorage problem s)
  = mapping (storage_json s) !! ProblemID problem.
Proof.
  unfold getTicketNumberFromStorage, mapping. simpl.
  rewrite readStorage_openOrCreate.
  destruct (Problems (readStorage (storage_json s))); [reflexivity|].
  symmetry. apply lookup_empty.
Qed.

Lemma getTicketNumberFromStorage_state problem s :
  let s1 := snd (getTicketNumberFromStorage problem s) in
  quiet s s1 /\ mapping (storage_json s1) = mapping (storage_json s).
Proof.
  unfold getTicketNumberFromStorage, quiet. simpl.
  rewrite openOrCreate_mapping. auto.
Qed.

(** With an entry to find the file is a document, and the lookup leaves
    the process as it was. *)
Lemma getTicketNumberFromStorage_found problem ticket s :
  mapping (storage_json s) !! ProblemID problem = Some ticket ->
  getTicketNumberFromStorage problem s = (Some ticket, s).
Proof.
  intros H. destruct s as [w tr f]. unfold getTicketNumberFromStorage. simpl in *.
  destruct f as [| |m|]; unfold mapping in H; simpl in *;
    try (rewrite lookup_empty in H; discriminate).
  rewrite H. reflexivity.
Qed.

(** The upsert returns on every file but the one with a [nil] map. *)
Lemma storeNewProblem_returns problem ticket s :
  storage_json s <> NilDocument ->
  storeNewProblem problem ticket s
  = Some {| backend := backend s; wire := wire s;
            storage_json :=
              Document (<[ProblemID problem := ticket]> (mapping (storage_json s))) |}.
Proof.
  intros Hf. unfold storeNewProblem, mapping.
  destruct (storage_json s); try reflexivity. contradiction.
Qed.

Lemma storeNewProblem_panics problem ticket s :
  storage_json s = NilDocument -> storeNewProblem problem ticket s = None.
Proof. intros Hf. unfold storeNewProblem. rewrite Hf. reflexivity. Qed.

Lemma storeNewProblem_Some problem ticket s s' :
  storeNewProblem problem ticket s = Some s' ->
  storage_json s <> NilDocument /\
  quiet s s' /\
  storage_json s'
  = Document (<[ProblemID problem := ticket]> (mapping (storage_json s))).
Proof.
  intros H. destruct (decide (storage_json s = NilDocument)) as [Hf|Hf].
  - rewrite (storeNewProblem_panics problem ticket s Hf) in H. discriminate.
  - rewrite (storeNewProblem_returns problem ticket s Hf) in H.
    injection H as <-. repeat split. exact Hf.
Qed.

Lemma storeNewProblem_mapping problem ticket s s' :
  storeNewProblem problem ticket s = Some s' ->
  mapping (storage_json s')
  = <[ProblemID problem := ticket]> (mapping (storage_json s)).
Proof.
  intros H. destruct (storeNewProblem_Some problem ticket s s' H) as (_ & _ & ->).
  reflexivity.
Qed.

Lemma after_store_quiet problem ticket s : quiet s (after_store problem ticket s).
Proof.
  unfold after_store.
  destruct (storeNewProblem problem ticket s) as [s'|] eqn:H; simpl.
  - apply (storeNewProblem_Some problem ticket s s' H).
  - split; reflexivity.
Qed.
End StoreFacts.

(** C8.  An upsert and then a lookup of the same problemID give back the
    ticket reference that was stored, and the upsert changes the mapping at
    that problemID only, on every [storage.json] but one: when the file
    decodes to a [nil] map, [storeNewProblem] panics at line 232, nothing is
    written, and the lookup that follows finds no ticket. *)
Theorem store_then_lookup {W} (problem : Problem) (ticket : CreateRequestResponse)
    (s : Process W) :
  (storage_json s <> NilDocument ->
   exists s',
     storeNewProblem problem ticket s = Some s' /\
     fst (getTicketNumberFromStorage problem s') = Some ticket /\
     mapping (storage_json s')
     = <[ProblemID problem := ticket]> (mapping (storage_json s))) /\
  (storage_json s = NilDocument ->
   storeNewProblem problem ticket s = None /\
   fst (getTicketNumberFromStorage problem (after_store problem ticket s)) = None).
Proof.
  split.
  - intros Hf. eexists. split; [apply storeNewProblem_returns, Hf|].
    rewrite getTicketNumberFromStorage_result. unfold mapping at 1 3. simpl.
    split; [apply lookup_insert_eq | reflexivity].
  - intros Hf. split; [apply storeNewProblem_panics, Hf|].
    rewrite getTicketNumberFromStorage_result.
    unfold after_store. rewrite (storeNewProblem_panics problem ticket s Hf). simpl.
    rewrite Hf. apply lookup_empty.
Qed.

(** The file [{}] and the ticket of P1. *)
Lemma store_then_lookup_witness :
  storeNewProblem P1_open INC001 (boot NilDocument) = None /\
  fst (getTicketNumberFromStorage P1_open (after_store P1_open INC001 (boot NilDocument)))
  = None.
Proof.
  apply (proj2 (store_then_lookup P1_open INC001 (boot NilDocument))). reflexivity.
Defined.

(** ** The two remote flows *)

(** Run a flow: unfold the wrappers and case on what the backend answers. *)
Ltac run_flow :=
  unfold openTicket, closeTicket, login, getHandle, createRequest, updateObject,
    bind, client_Call, client_Unmarshal;
  repeat (simpl;
          match goal with
          | |- context [Call ?c ?m ?p ?w] =>
              let e := fresh "e" in let w1 := fresh "w" in
              destruct (Call c m p w) as [[e|] w1]
          | |- context [Unmarshal_LoginResponse ?c ?w] =>
              destruct (Unmarshal_LoginResponse c w) as [?|[?]]
          | |- context [Unmarshal_GetHandleForUserIDResponse ?c ?w] =>
              destruct (Unmarshal_GetHandleForUserIDResponse c w) as [?|[?]]
          | |- context [Unmarshal_CreateRequestResponse ?c ?w] =>
              destruct (Unmarshal_CreateRequestResponse c w) as [?|?]
          | |- context [Unmarshal_UpdateObjectResponse ?c ?w] =>
              destruct (Unmarshal_UpdateObjectResponse c w) as [?|?]
          end);
  simpl.

Section FlowFacts.
Context {W : Type}.
Variable client : SoapClient W.
Variable config : Config.
Implicit Types s : Process W.

Lemma openTicket_storage description summary pcat s :
  storage_json (snd (openTicket client config description summary pcat s))
  = storage_json s.
Proof. run_flow; reflexivity. Qed.

Lemma closeTicket_storage objectHandle s :
  storage_json (snd (closeTicket client config objectHandle s)) = storage_json s.
Proof. run_flow; reflexivity. Qed.

Lemma send_all_wire calls s :
  wire (send_all client calls s) = (wire s ++ calls)%list.
Proof.
  revert s. induction calls as [|c calls IH]; intros s.
  - simpl. rewrite app_nil_r. reflexivity.
  - unfold send_all in *. simpl. rewrite IH.
    unfold send, client_Call.
    destruct (Call client (method c) (params c) (backend s)) as [[e|] w]; simpl;
      destruct c; rewrite <- app_assoc; reflexivity.
Qed.

(** Each wrapper leaves the process as its one request leaves it. *)
Lemma login_send s :
  snd (login client (SDMUsername config) (SDMPassword config) s)
  = send client (login_request config) s.
Proof. unfold send. run_flow; reflexivity. Qed.

Lemma getHandle_send sid s :
  snd (getHandle client sid (SDMUsername config) s)
  = send client (getHandleForUserid_request config sid) s.
Proof. unfold send. run_flow; reflexivity. Qed.

Lemma createRequest_send sid handle pcat details summary s :
  snd (createRequest client sid handle
         [ str "customer"; str handle;
           str "category"; str ("pcat:" +:+ pcat);
           str "description"; str details;
           str "summary"; str summary;
           str "urgency"; str "2";
           str "impact"; str "4";
           str "group"; str "5FA1B7BE4CFA2E4C9B19E115AE49A642";
           str "type"; str "crt:182" ] [] "" [] "" "" s)
  = send client (createRequest_request sid handle pcat details summary) s.
Proof.
  unfold send, createRequest_request, alternating, str. simpl.
  run_flow; reflexivity.
Qed.

Lemma updateObject_send sid objectHandle s :
  snd (updateObject client sid objectHandle
         [ str "status"; str "RE"; str "rootcause"; str "rc:400174" ]
         [ str "status"; str "rootcause" ] s)
  = send client (updateObject_request sid objectHandle) s.
Proof.
  unfold send, updateObject_request, alternating, str. simpl.
  run_flow; reflexivity.
Qed.

Lemma send_wire c s : wire (send client c s) = (wire s ++ [c])%list.
Proof. apply (send_all_wire [c] s). Qed.

Lemma openTicket_wire description summary pcat s :
  exists calls,
    wire (snd (openTicket client config description summary pcat s))
    = (wire s ++ calls)%list /\
    match fst (openTicket client config description summary pcat s) with
    | inr _ =>
        exists l h s1 s2,
          login client (SDMUsername config) (SDMPassword config) s = (inr l, s1) /\
          getHandle client (LoginReturn l) (SDMUsername config) s1 = (inr h, s2) /\
          calls = [ login_request config;
                    getHandleForUserid_request config (LoginReturn l);
                    createRequest_request (LoginReturn l) (GetHandleForUserIDReturn h)
                      pcat description summary ]
    | inl _ =>
        exists sid handle,
          calls `prefix_of`
            [ login_request config;
              getHandleForUserid_request config sid;
              createRequest_request sid handle pcat description summary ]
    end.
Proof.
  unfold openTicket, bind.
  pose proof (login_send s) as Hl.
  destruct (login client (SDMUsername config) (SDMPassword config) s) as [[e|l] s1]
    eqn:Hlogin;
    cbn [fst snd] in *.
  { exists [login_request config]. subst s1. split; [apply send_wire|].
    exists "", "". eexists. reflexivity. }
  pose proof (getHandle_send (LoginReturn l) s1) as Hh.
  destruct (getHandle client (LoginReturn l) (SDMUsername config) s1) as [[e|h] s2]
    eqn:Hhandle;
    cbn [fst snd] in *.
  { exists [login_request config; getHandleForUserid_request config (LoginReturn l)].
    subst s2 s1. split.
    - rewrite !send_wire, <- app_assoc. reflexivity.
    - exists (LoginReturn l), "". eexists. reflexivity. }
  pose proof (createRequest_send (LoginReturn l) (GetHandleForUserIDReturn h)
                pcat description summary s2) as Hc.
  exists [ login_request config;
           getHandleForUserid_request config (LoginReturn l);
           createRequest_request (LoginReturn l) (GetHandleForUserIDReturn h)
             pcat description summary ].
  split.
  - rewrite Hc, send_wire. rewrite Hh, send_wire. rewrite Hl, send_wire.
    rewrite <- !app_assoc. reflexivity.
  - destruct (createRequest client _ _ _ _ _ _ _ _ s2) as [[e|r] s3]; cbn [fst].
    + exists (LoginReturn l), (GetHandleForUserIDReturn h), []. reflexivity.
    + exists l, h, s1, s2. auto.
Qed.

Lemma closeTicket_wire objectHandle s :
  exists calls,
    wire (snd (closeTicket client config objectHandle s)) = (wire s ++ calls)%list /\
    match fst (closeTicket client config objectHandle s) with
    | inr _ =>
        exists l s1,
          login client (SDMUsername config) (SDMPassword config) s = (inr l, s1) /\
          calls = [ login_request config;
                    updateObject_request (LoginReturn l) objectHandle ]
    | inl _ =>
        exists sid,
          calls `prefix_of`
            [ login_request config; updateObject_request sid objectHandle ]
    end.
Proof.
  unfold closeTicket, bind.
  pose proof (login_send s) as Hl.
  destruct (login client (SDMUsername config) (SDMPassword config) s) as [[e|l] s1];
    cbn [fst snd] in *.
  { exists [login_request config]. subst s1. split; [apply send_wire|].
    exists "". eexists. reflexivity. }
  pose proof (updateObject_send (LoginReturn l) objectHandle s1) as Hu.
  exists [login_request config; updateObject_request (LoginReturn l) objectHandle].
  split.
  - rewrite Hu, send_wire. rewrite Hl, send_wire. rewrite <- !app_assoc. reflexivity.
  - destruct (updateObject client _ _ _ _ s1) as [[e|r] s2]; cbn [fst].
    + exists (LoginReturn l), []. reflexivity.
    + exists l, s1. auto.
Qed.

Lemma openTicket_attempt description summary pcat s :
  attempt_of client config s (snd (openTicket client config description summary pcat s)).
Proof.
  unfold attempt_of, openTicket, bind.
  pose proof (login_send s) as Hl.
  destruct (login client (SDMUsername config) (SDMPassword config) s) as [[e|l] s1];
    cbn [fst snd] in *.
  { exists []. split; [exact Hl | reflexivity]. }
  pose proof (getHandle_send (LoginReturn l) s1) as Hh.
  destruct (getHandle client (LoginReturn l) (SDMUsername config) s1) as [[e|h] s2];
    cbn [fst snd] in *.
  { exists [getHandleForUserid_request config (LoginReturn l)]. split.
    - unfold send_all. simpl. rewrite <- Hl. exact Hh.
    - repeat constructor; try discriminate. }
  exists [getHandleForUserid_request config (LoginReturn l);
          createRequest_request (LoginReturn l) (GetHandleForUserIDReturn h)
            pcat description summary].
  split.
  - unfold send_all. simpl. rewrite <- Hl, <- Hh.
    apply createRequest_send.
  - repeat constructor; try discriminate.
Qed.

Lemma closeTicket_attempt objectHandle s :
  attempt_of client config s (snd (closeTicket client config objectHandle s)).
Proof.
  unfold attempt_of, closeTicket, bind.
  pose proof (login_send s) as Hl.
  destruct (login client (SDMUsername config) (SDMPassword config) s) as [[e|l] s1];
    cbn [fst snd] in *.
  { exists []. split; [exact Hl | reflexivity]. }
  exists [updateObject_request (LoginReturn l) objectHandle]. split.
  - unfold send_all. simpl. rewrite <- Hl. apply updateObject_send.
  - repeat constructor; try discriminate.
Qed.
(** The calls of a flow, exactly, by what its steps returned. *)
Lemma openTicket_calls description summary pcat s :
  wire (snd (openTicket client config description summary pcat s))
  = (wire s ++ login_request config ::
       match login client (SDMUsername config) (SDMPassword config) s with
       | (inl _, _) => []
       | (inr l, s1) =>
           getHandleForUserid_request config (LoginReturn l) ::
           match getHandle client (LoginReturn l) (SDMUsername config) s1 with
           | (inl _, _) => []
           | (inr h, _) =>
               [ createRequest_request (LoginReturn l) (GetHandleForUserIDReturn h)
                   pcat description summary ]
           end
       end)%list.
Proof.
  unfold openTicket, bind.
  pose proof (login_send s) as Hl.
  destruct (login client (SDMUsername config) (SDMPassword config) s) as [[e|l] s1];
    cbn [fst snd] in *.
  { subst s1. apply send_wire. }
  pose proof (getHandle_send (LoginReturn l) s1) as Hh.
  destruct (getHandle client (LoginReturn l) (SDMUsername config) s1) as [[e|h] s2];
    cbn [fst snd] in *.
  { subst s2 s1. rewrite !send_wire, <- app_assoc. reflexivity. }
  rewrite (createRequest_send (LoginReturn l) (GetHandleForUserIDReturn h)
             pcat description summary s2).
  subst s2 s1. rewrite !send_wire, <- !app_assoc. reflexivity.
Qed.

Lemma closeTicket_calls objectHandle s :
  wire (snd (closeTicket client config objectHandle s))
  = (wire s ++ login_request config ::
       match login client (SDMUsername config) (SDMPassword config) s with
       | (inl _, _) => []
       | (inr l, _) => [ updateObject_request (LoginReturn l) objectHandle ]
       end)%list.
Proof.
  unfold closeTicket, bind.
  pose proof (login_send s) as Hl.
  destruct (login client (SDMUsername config) (SDMPassword config) s) as [[e|l] s1];
    cbn [fst snd] in *.
  { subst s1. apply send_wire. }
  rewrite (updateObject_send (LoginReturn l) objectHandle s1).
  subst s1. rewrite !send_wire, <- !app_assoc. reflexivity.
Qed.

Lemma openTicket_success description summary pcat s ticket s' :
  openTicket client config description summary pcat s = (inr ticket, s') ->
  exists l h s1 s2,
    login client (SDMUsername config) (SDMPassword config) s = (inr l, s1) /\
    getHandle client (LoginReturn l) (SDMUsername config) s1 = (inr h, s2) /\
    wire s' = (wire s ++ [ login_request config;
                           getHandleForUserid_request config (LoginReturn l);
                           createRequest_request (LoginReturn l) (GetHandleForUserIDReturn h)
                             pcat description summary ])%list.
Proof.
  intros H. pose proof (openTicket_calls description summary pcat s) as Hw.
  rewrite H in Hw. cbn [snd] in Hw. revert H Hw. unfold openTicket, bind.
  destruct (login client (SDMUsername config) (SDMPassword config) s) as [[e|l] s1];
    [discriminate|].
  destruct (getHandle client (LoginReturn l) (SDMUsername config) s1) as [[e|h] s2]
    eqn:Hh; [discriminate|].
  intros _ Hw. exists l, h, s1, s2. auto.
Qed.

Lemma closeTicket_success objectHandle s closed s' :
  closeTicket client config objectHandle s = (inr closed, s') ->
  exists l s1,
    login client (SDMUsername config) (SDMPassword config) s = (inr l, s1) /\
    wire s' = (wire s ++ [ login_request config;
                           updateObject_request (LoginReturn l) objectHandle ])%list.
Proof.
  intros H. pose proof (closeTicket_calls objectHandle s) as Hw.
  rewrite H in Hw. cbn [snd] in Hw. revert H Hw. unfold closeTicket, bind.
  destruct (login client (SDMUsername config) (SDMPassword config) s) as [[e|l] s1];
    [discriminate|].
  intros _ Hw. exists l, s1. auto.
Qed.

(** The flows as the backend sees them. *)
Lemma remote_send_all calls s :
  remote (send_all client calls s)
  = (answered client calls (backend s), (wire s ++ calls)%list).
Proof.
  revert s. induction calls as [|c calls IH]; intros s.
  - unfold remote. simpl. rewrite app_nil_r. reflexivity.
  - unfold send_all, answered in *. simpl. rewrite IH.
    unfold send, client_Call.
    destruct (Call client (method c) (params c) (backend s)) as [[e|] w]; simpl;
      destruct c; rewrite <- app_assoc; reflexivity.
Qed.

Lemma session_at_login s :
  session_at client config (backend s)
  = match fst (login client (SDMUsername config) (SDMPassword config) s) with
    | inr l => Some (LoginReturn l)
    | inl _ => None
    end.
Proof. unfold session_at, login_request. simpl. run_flow; reflexivity. Qed.

Lemma attempt_of_fresh s s' :
  attempt_of client config s s' ->
  (is_Some (session_at client config (backend s)) ->
   (1 <= length (wire s') - length (wire s) - 1 <= 2)%nat) ->
  fresh_attempt client config (remote s) (remote s').
Proof.
  intros (rest & -> & Hrest) Hlen. exists rest.
  split; [apply remote_send_all|].
  unfold remote. cbn [fst].
  rewrite session_at_login in *. rewrite send_all_wire, length_app in Hlen.
  destruct (login client (SDMUsername config) (SDMPassword config) s) as [[e|l] s1];
    cbn [fst] in *; [exact Hrest|].
  split; [exact Hrest|]. simpl in Hlen.
  assert (is_Some (Some (LoginReturn l))) as Hs by eauto.
  specialize (Hlen Hs). lia.
Qed.

Lemma openTicket_fresh description summary pcat s :
  fresh_attempt client config (remote s)
    (remote (snd (openTicket client config description summary pcat s))).
Proof.
  apply attempt_of_fresh; [apply openTicket_attempt|].
  rewrite session_at_login, openTicket_calls.
  destruct (login client (SDMUsername config) (SDMPassword config) s) as [[e|l] s1];
    cbn [fst]; intros [sid Hsid]; [discriminate|].
  rewrite length_app.
  destruct (getHandle client (LoginReturn l) (SDMUsername config) s1) as [[e|h] s2];
    simpl; lia.
Qed.

Lemma closeTicket_fresh objectHandle s :
  fresh_attempt client config (remote s)
    (remote (snd (closeTicket client config objectHandle s))).
Proof.
  apply attempt_of_fresh; [apply closeTicket_attempt|].
  rewrite session_at_login, closeTicket_calls.
  destruct (login client (SDMUsername config) (SDMPassword config) s) as [[e|l] s1];
    cbn [fst]; intros [sid Hsid]; [discriminate|].
  rewrite length_app. simpl. lia.
Qed.

Lemma handle_at_getHandle sid s :
  handle_at client config sid (backend s)
  = match fst (getHandle client sid (SDMUsername config) s) with
    | inr h => Some (GetHandleForUserIDReturn h)
    | inl _ => None
    end.
Proof. unfold handle_at, getHandleForUserid_request. simpl. run_flow; reflexivity. Qed.

Lemma backend_after_login s :
  backend (snd (login client (SDMUsername config) (SDMPassword config) s))
  = answered client [login_request config] (backend s).
Proof.
  rewrite login_send.
  pose proof (remote_send_all [login_request config] s) as H.
  unfold remote in H. injection H as H _. exact H.
Qed.

Lemma create_calls_steps description summary pcat s :
  create_calls client config pcat description summary (backend s)
  = login_request config ::
    match login client (SDMUsername config) (SDMPassword config) s with
    | (inl _, _) => []
    | (inr l, s1) =>
        getHandleForUserid_request config (LoginReturn l) ::
        match getHandle client (LoginReturn l) (SDMUsername config) s1 with
        | (inl _, _) => []
        | (inr h, _) =>
            [ createRequest_request (LoginReturn l) (GetHandleForUserIDReturn h)
                pcat description summary ]
        end
    end.
Proof.
  unfold create_calls. rewrite session_at_login, <- backend_after_login.
  destruct (login client (SDMUsername config) (SDMPassword config) s) as [[e|l] s1];
    cbn [fst snd]; [reflexivity|].
  rewrite handle_at_getHandle.
  destruct (getHandle client (LoginReturn l) (SDMUsername config) s1) as [[e|h] s2];
    reflexivity.
Qed.

Lemma close_calls_steps objectHandle s :
  close_calls client config objectHandle (backend s)
  = login_request config ::
    match login client (SDMUsername config) (SDMPassword config) s with
    | (inl _, _) => []
    | (inr l, _) => [ updateObject_request (LoginReturn l) objectHandle ]
    end.
Proof.
  unfold close_calls. rewrite session_at_login.
  destruct (login client (SDMUsername config) (SDMPassword config) s) as [[e|l] s1];
    reflexivity.
Qed.

(** A process that made one attempt is where its calls, as they stand on
    the wire, lead the backend. *)
Lemma attempt_of_remote s s' calls :
  attempt_of client config s s' -> wire s' = (wire s ++ calls)%list ->
  remote s' = (answered client calls (backend s), (wire s ++ calls)%list).
Proof.
  intros (rest & -> & _) Hw. rewrite send_all_wire in Hw.
  apply app_inv_head in Hw. rewrite <- Hw. apply remote_send_all.
Qed.

Lemma openTicket_remote description summary pcat s :
  remote (snd (openTicket client config description summary pcat s))
  = (answered client (create_calls client config pcat description summary (backend s))
       (backend s),
     (wire s ++ create_calls client config pcat description summary (backend s))%list).
Proof.
  apply attempt_of_remote; [apply openTicket_attempt|].
  rewrite create_calls_steps. apply openTicket_calls.
Qed.

Lemma closeTicket_remote objectHandle s :
  remote (snd (closeTicket client config objectHandle s))
  = (answered client (close_calls client config objectHandle (backend s)) (backend s),
     (wire s ++ close_calls client config objectHandle (backend s))%list).
Proof.
  apply attempt_of_remote; [apply closeTicket_attempt|].
  rewrite close_calls_steps. apply closeTicket_calls.
Qed.

Lemma openTicket_succeeded description summary pcat s ticket s' :
  openTicket client config description summary pcat s = (inr ticket, s') ->
  exists sid handle,
    session_at client config (backend s) = Some sid /\
    handle_at client config sid (answered client [login_request config] (backend s))
    = Some handle.
Proof.
  pose proof (session_at_login s) as Hs. pose proof (backend_after_login s) as Hb.
  unfold openTicket, bind.
  destruct (login client (SDMUsername config) (SDMPassword config) s) as [[e|l] s1];
    [discriminate|].
  destruct (getHandle client (LoginReturn l) (SDMUsername config) s1) as [[e|h] s2]
    eqn:Hh; [discriminate|].
  intros _. cbn [fst snd] in *.
  exists (LoginReturn l), (GetHandleForUserIDReturn h). split; [exact Hs|].
  rewrite <- Hb, handle_at_getHandle, Hh. reflexivity.
Qed.

Lemma closeTicket_succeeded objectHandle s closed s' :
  closeTicket client config objectHandle s = (inr closed, s') ->
  exists sid, session_at client config (backend s) = Some sid.
Proof.
  rewrite session_at_login. unfold closeTicket, bind.
  destruct (login client (SDMUsername config) (SDMPassword config) s) as [[e|l] s1];
    [discriminate|].
  intros _. cbn [fst]. eauto.
Qed.
End FlowFacts.

(** C7.  The create flow sends, in this order, [login],
    [getHandleForUserid] and [createRequest], the last with [attrVals]
    customer, category ([pcat:] and the event's Pcat), description,
    summary, urgency 2, impact 4, group 5FA1B7BE4CFA2E4C9B19E115AE49A642
    and type crt:182, each name followed by its value; the close flow sends
    [login] and then [updateObject] with [attrVals] status RE, rootcause
    rc:400174 and [attributes] status, rootcause.  What reaches the backend
    is fixed by the backend's own answers: the login always goes out; each
    later request goes out exactly when the answer to the one before it
    came and decoded, under the session and for the handle those answers
    hold; nothing else goes out, and the backend is left as these calls
    leave it.  A flow that succeeds has sent all of its requests. *)
Theorem flows_on_the_wire {W} (client : SoapClient W) (config : Config) :
  (forall description summary pcat s,
      remote (snd (openTicket client config description summary pcat s))
      = (answered client (create_calls client config pcat description summary (backend s))
           (backend s),
         (wire s ++ create_calls client config pcat description summary (backend s))%list) /\
      forall ticket s',
        openTicket client config description summary pcat s = (inr ticket, s') ->
        exists sid handle,
          wire s'
          = (wire s ++ [ login_request config;
                         getHandleForUserid_request config sid;
                         createRequest_request sid handle pcat description summary ])%list /\
          session_at client config (backend s) = Some sid /\
          handle_at client config sid (answered client [login_request config] (backend s))
          = Some handle) /\
  (forall objectHandle s,
      remote (snd (closeTicket client config objectHandle s))
      = (answered client (close_calls client config objectHandle (backend s)) (backend s),
         (wire s ++ close_calls client config objectHandle (backend s))%list) /\
      forall closed s',
        closeTicket client config objectHandle s = (inr closed, s') ->
        exists sid,
          wire s' = (wire s ++ [ login_request config;
                                 updateObject_request sid objectHandle ])%list /\
          session_at client config (backend s) = Some sid).
Proof.
  split.
  - intros description summary pcat s.
    pose proof (openTicket_remote client config description summary pcat s) as Hr.
    split; [exact Hr|].
    intros ticket s' H.
    destruct (openTicket_succeeded client config description summary pcat s ticket s' H)
      as (sid & handle & Hs & Hh).
    exists sid, handle. split; [|split; assumption].
    apply (f_equal snd) in Hr. rewrite H in Hr. unfold remote, create_calls in Hr.
    cbn [snd] in Hr. rewrite Hs, Hh in Hr. exact Hr.
  - intros objectHandle s.
    pose proof (closeTicket_remote client config objectHandle s) as Hr.
    split; [exact Hr|].
    intros closed s' H.
    destruct (closeTicket_succeeded client config objectHandle s closed s' H) as (sid & Hs).
    exists sid. split; [|assumption].
    apply (f_equal snd) in Hr. rewrite H in Hr. unfold remote, close_calls in Hr.
    cbn [snd] in Hr. rewrite Hs in Hr. exact Hr.
Qed.

(** A healthy backend: the three requests of the create flow of P1 and the
    two of the close flow of its ticket, under the sessions the logins
    opened. *)
Lemma flows_on_the_wire_witness :
  (exists sid handle,
      wire (snd (open_P1 healthy (boot Absent)))
      = (wire (boot Absent)
           ++ [ login_request cfg0;
                getHandleForUserid_request cfg0 sid;
                createRequest_request sid handle
                  (Pcat P1_open) (ProblemDetailsText P1_open) (title P1_open) ])%list /\
      session_at healthy cfg0 (backend (boot Absent)) = Some sid /\
      handle_at healthy cfg0 sid (answered healthy [login_request cfg0] (backend (boot Absent)))
      = Some handle) /\
  (exists sid,
      wire (snd (close_H1 healthy (boot Absent)))
      = (wire (boot Absent) ++ [ login_request cfg0; updateObject_request sid "H1" ])%list /\
      session_at healthy cfg0 (backend (boot Absent)) = Some sid).
Proof.
  split.
  - apply (proj2 (proj1 (flows_on_the_wire healthy cfg0) (ProblemDetailsText P1_open)
                    (title P1_open) (Pcat P1_open) (boot Absent))
             INC001 (snd (open_P1 healthy (boot Absent)))).
    vm_compute. reflexivity.
  - apply (proj2 (proj2 (flows_on_the_wire healthy cfg0) "H1" (boot Absent))
             {| UpdateObjectReturn := "1" |} (snd (close_H1 healthy (boot Absent)))).
    vm_compute. reflexivity.
Defined.

(** ** The handler *)

Section HandlerFacts.
Context {W : Type}.
Variable client : SoapClient W.
Variable config : Config.
Variable MaxRetries : Z.
Implicit Types (s : Process W) (problem : Problem).

Local Abbreviation create problem :=
  (openTicket client config (ProblemDetailsText problem) (title problem) (Pcat problem)).

Lemma resolved_not_open problem : State problem = "RESOLVED" -> State problem <> "OPEN".
Proof. intros -> . discriminate. Qed.

Lemma create_failures_storage problem k s sk :
  after_failures (create problem) k s = Some sk -> storage_json sk = storage_json s.
Proof.
  intros H.
  apply (after_failures_respects (create problem)
           (fun x y => storage_json y = storage_json x) k s sk); auto.
  - intros x y z Hxy Hyz. congruence.
  - intros x. exact (openTicket_storage client config _ _ _ x).
Qed.

Lemma close_failures_storage objectHandle k s sk :
  after_failures (closeTicket client config objectHandle) k s = Some sk ->
  storage_json sk = storage_json s.
Proof.
  intros H.
  apply (after_failures_respects (closeTicket client config objectHandle)
           (fun x y => storage_json y = storage_json x) k s sk); auto.
  - intros x y z Hxy Hyz. congruence.
  - intros x. exact (closeTicket_storage client config _ x).
Qed.

Lemma Do_create_storage problem r0 s :
  storage_json (snd (snd (try.Do MaxRetries (retrying (create problem)) (r0, s))))
  = storage_json s.
Proof.
  apply (Do_retrying_respects (create problem)
           (fun x y => storage_json y = storage_json x)).
  - intros x y z Hxy Hyz. congruence.
  - intros x. exact (openTicket_storage client config _ _ _ x).
Qed.

Lemma Do_close_storage objectHandle r0 s :
  storage_json
    (snd (snd (try.Do MaxRetries (retrying (closeTicket client config objectHandle))
                 (r0, s))))
  = storage_json s.
Proof.
  apply (Do_retrying_respects (closeTicket client config objectHandle)
           (fun x y => storage_json y = storage_json x)).
  - intros x y z Hxy Hyz. congruence.
  - intros x. exact (closeTicket_storage client config _ x).
Qed.

(** The handler on an OPEN event whose create flow succeeds: the upsert
    of line 141 decides between the answer and the panic. *)
Lemma SDMHandler_open_succeeded problem s k sk ticket s' :
  State problem = "OPEN" ->
  Z.of_nat k < MaxRetries ->
  after_failures (create problem) k s = Some sk ->
  create problem sk = (inr ticket, s') ->
  SDMHandler client config MaxRetries (inr problem) s
  = match storeNewProblem problem ticket s' with
    | Some s2 =>
        (Wrote StatusOK {| Error := false;
                           Message := "Opened ticket: " +:+ NewRequestNumber ticket |}, s2)
    | None => (Panic "assignment to entry in nil map", s')
    end /\
  storage_json s' = storage_json s.
Proof.
  intros Hopen Hlt Hk Hop. split.
  - unfold SDMHandler.
    destruct (decide (State problem = "OPEN")) as [_|Hn]; [|contradiction].
    rewrite (Do_retrying_success (create problem) MaxRetries None k s sk ticket s' Hlt Hk Hop).
    reflexivity.
  - rewrite <- (create_failures_storage problem k s sk Hk).
    rewrite <- (openTicket_storage client config (ProblemDetailsText problem)
                  (title problem) (Pcat problem) sk).
    rewrite Hop. reflexivity.
Qed.

Lemma SDMHandler_opened problem s k sk ticket s' :
  State problem = "OPEN" ->
  Z.of_nat k < MaxRetries ->
  after_failures (create problem) k s = Some sk ->
  create problem sk = (inr ticket, s') ->
  storage_json s <> NilDocument ->
  SDMHandler client config MaxRetries (inr problem) s
  = (Wrote StatusOK {| Error := false;
                       Message := "Opened ticket: " +:+ NewRequestNumber ticket |},
     {| backend := backend s'; wire := wire s';
        storage_json :=
          Document (<[ProblemID problem := ticket]> (mapping (storage_json s))) |}).
Proof.
  intros Hopen Hlt Hk Hop Hf.
  destruct (SDMHandler_open_succeeded problem s k sk ticket s' Hopen Hlt Hk Hop)
    as [-> Hst].
  rewrite storeNewProblem_returns by (rewrite Hst; exact Hf).
  rewrite Hst. reflexivity.
Qed.

Lemma SDMHandler_open_panics problem s k sk ticket s' :
  State problem = "OPEN" ->
  Z.of_nat k < MaxRetries ->
  after_failures (create problem) k s = Some sk ->
  create problem sk = (inr ticket, s') ->
  storage_json s = NilDocument ->
  SDMHandler client config MaxRetries (inr problem) s
  = (Panic "assignment to entry in nil map", s') /\
  storage_json s' = NilDocument.
Proof.
  intros Hopen Hlt Hk Hop Hf.
  destruct (SDMHandler_open_succeeded problem s k sk ticket s' Hopen Hlt Hk Hop)
    as [-> Hst].
  rewrite storeNewProblem_panics by (rewrite Hst; exact Hf).
  rewrite Hst. auto.
Qed.

(** The handler on an OPEN event whose create flow fails every time. *)
Lemma SDMHandler_open_exhausted problem s s' :
  State problem = "OPEN" ->
  1 <= MaxRetries ->
  after_failures (create problem) (Z.to_nat MaxRetries) s = Some s' ->
  SDMHandler client config MaxRetries (inr problem) s
  = (Wrote StatusInternalServerError
       {| Error := true;
          Message := "Could not open ticket after " +:+ itoa MaxRetries
                     +:+ " tries, error: exceeded retry limit" |}, s').
Proof.
  intros Hopen Hge Hk. unfold SDMHandler.
  destruct (decide (State problem = "OPEN")) as [_|Hn]; [|contradiction].
  rewrite (Do_retrying_exhausted (create problem) MaxRetries None s s' Hge Hk).
  reflexivity.
Qed.

(** The handler on a RESOLVED event with a ticket on file. *)
Lemma SDMHandler_resolved_found problem ticket s :
  State problem = "RESOLVED" ->
  mapping (storage_json s) !! ProblemID problem = Some ticket ->
  SDMHandler client config MaxRetries (inr problem) s
  = let '(err, (_, s2)) :=
      try.Do MaxRetries (retrying (closeTicket client config (NewRequestHandle ticket)))
        (None, s) in
    match err with
    | Some e =>
        (Wrote StatusInternalServerError
           {| Error := true;
              Message := "Could not close ticket " +:+ NewRequestNumber ticket
                         +:+ " after " +:+ itoa MaxRetries
                         +:+ " tries, error: " +:+ e |}, s2)
    | None =>
        (Wrote StatusOK
           {| Error := false;
              Message := "Closed ticket: " +:+ NewRequestNumber ticket |}, s2)
    end.
Proof.
  intros Hres Hfound. unfold SDMHandler.
  destruct (decide (State problem = "OPEN")) as [Ho|_].
  { exfalso. exact (resolved_not_open problem Hres Ho). }
  destruct (decide (State problem = "RESOLVED")) as [_|Hn]; [|contradiction].
  rewrite (getTicketNumberFromStorage_found problem ticket s Hfound).
  reflexivity.
Qed.

(** The handler on an event that asks for nothing. *)
Lemma SDMHandler_no_action problem s :
  (State problem = "RESOLVED" /\ mapping (storage_json s) !! ProblemID problem = None) \/
  (State problem <> "OPEN" /\ State problem <> "RESOLVED") ->
  SDMHandler client config MaxRetries (inr problem) s
  = (Wrote StatusOK {| Error := false; Message := "" |},
     {| backend := backend s; wire := wire s;
        storage_json := if decide (State problem = "RESOLVED")
                        then openOrCreate (storage_json s) else storage_json s |}).
Proof.
  intros [[Hres Hnone] | [Hno Hnr]]; unfold SDMHandler.
  - destruct (decide (State problem = "OPEN")) as [Ho|_].
    { exfalso. exact (resolved_not_open problem Hres Ho). }
    destruct (decide (State problem = "RESOLVED")) as [_|Hn]; [|contradiction].
    pose proof (getTicketNumberFromStorage_result problem s) as Hr.
    rewrite Hnone in Hr.
    unfold getTicketNumberFromStorage in *. simpl in *. rewrite Hr. reflexivity.
  - destruct (decide (State problem = "OPEN")) as [Ho|_]; [contradiction|].
    destruct (decide (State problem = "RESOLVED")) as [Hr|_]; [contradiction|].
    destruct s; reflexivity.
Qed.
End HandlerFacts.

(** C1.  On an OPEN event whose create flow, retried, succeeds within the
    bound (it fails [k < MaxRetries] times and then returns [ticket]), the
    handler answers 200 with [error = false] and the message
    [Opened ticket: <number>], and afterwards the store maps the event's
    problemID to the handle and number the create call returned, on every
    [storage.json] but one: when the file decodes to a [nil] map the upsert
    of line 141 panics at line 232 once the ticket exists at the backend,
    no answer is written and the store holds no entry for the problemID. *)
Theorem open_event_stores_ticket {W} (client : SoapClient W) (config : Config)
    (MaxRetries : Z) (problem : Problem) (s : Process W)
    (k : nat) (sk : Process W) (ticket : CreateRequestResponse) (s' : Process W) :
  State problem = "OPEN" ->
  Z.of_nat k < MaxRetries ->
  after_failures
    (openTicket client config (ProblemDetailsText problem) (title problem) (Pcat problem))
    k s = Some sk ->
  openTicket client config (ProblemDetailsText problem) (title problem) (Pcat problem) sk
  = (inr ticket, s') ->
  (storage_json s <> NilDocument ->
   fst (SDMHandler client config MaxRetries (inr problem) s)
   = Wrote StatusOK {| Error := false;
                       Message := "Opened ticket: " +:+ NewRequestNumber ticket |} /\
   mapping (storage_json (snd (SDMHandler client config MaxRetries (inr problem) s)))
     !! ProblemID problem = Some ticket /\
   fst (getTicketNumberFromStorage problem
          (snd (SDMHandler client config MaxRetries (inr problem) s))) = Some ticket) /\
  (storage_json s = NilDocument ->
   SDMHandler client config MaxRetries (inr problem) s
   = (Panic "assignment to entry in nil map", s') /\
   mapping (storage_json s') !! ProblemID problem = None).
Proof.
  intros Hopen Hlt Hk Hop. split; intros Hf.
  - rewrite (SDMHandler_opened client config MaxRetries problem s k sk ticket s'
               Hopen Hlt Hk Hop Hf).
    cbn [fst snd]. split; [reflexivity|].
    rewrite getTicketNumberFromStorage_result. cbn [storage_json].
    unfold mapping at 1 3. simpl. split; apply lookup_insert_eq.
  - destruct (SDMHandler_open_panics client config MaxRetries problem s k sk ticket s'
                Hopen Hlt Hk Hop Hf) as [-> Hst].
    split; [reflexivity|]. rewrite Hst. apply lookup_empty.
Qed.

(** [storage.json] holds [{}] and the backend is healthy: the three
    requests of the create flow go out, the ticket INC001 exists, and the
    handler panics.  On a missing file, with a backend that refuses the
    first four calls, the fifth attempt goes through and INC001 is on file
    under P1. *)
Lemma open_event_stores_ticket_witness :
  (SDMHandler healthy cfg0 50 (inr P1_open) (boot NilDocument)
   = (Panic "assignment to entry in nil map", snd (open_P1 healthy (boot NilDocument))) /\
   mapping (storage_json (snd (open_P1 healthy (boot NilDocument)))) !! "P1" = None) /\
  (fst (SDMHandler (flaky 4) cfg0 50 (inr P1_open) (boot Absent))
   = Wrote StatusOK {| Error := false; Message := "Opened ticket: INC001" |} /\
   mapping (storage_json (snd (SDMHandler (flaky 4) cfg0 50 (inr P1_open) (boot Absent))))
     !! "P1" = Some INC001 /\
   fst (getTicketNumberFromStorage P1_open
          (snd (SDMHandler (flaky 4) cfg0 50 (inr P1_open) (boot Absent)))) = Some INC001).
Proof.
  split.
  - apply (proj2 (open_event_stores_ticket healthy cfg0 50 P1_open (boot NilDocument) 0%nat
                    (boot NilDocument) INC001 (snd (open_P1 healthy (boot NilDocument)))
                    ltac:(reflexivity) ltac:(lia) ltac:(reflexivity)
                    ltac:(vm_compute; reflexivity))).
    reflexivity.
  - apply (proj1 (open_event_stores_ticket (flaky 4) cfg0 50 P1_open (boot Absent) 4%nat
                    (state_after (open_P1 (flaky 4)) 4 (boot Absent)) INC001
                    (snd (open_P1 (flaky 4) (state_after (open_P1 (flaky 4)) 4 (boot Absent))))
                    ltac:(reflexivity) ltac:(lia) ltac:(vm_compute; reflexivity)
                    ltac:(vm_compute; reflexivity))).
    discriminate.
Defined.

(** C5.  An event that asks for no ticket action, that is a RESOLVED
    event whose problemID the store does not know, or an event whose state
    is neither OPEN nor RESOLVED, makes no remote call (nothing is added to
    the wire and the backend is as it was) and is answered with the zero
    [Response]: [error = false] and an empty message. *)
Theorem no_action_events {W} (client : SoapClient W) (config : Config) (MaxRetries : Z)
    (problem : Problem) (s : Process W) :
  (State problem = "RESOLVED" /\ mapping (storage_json s) !! ProblemID problem = None) \/
  (State problem <> "OPEN" /\ State problem <> "RESOLVED") ->
  fst (SDMHandler client config MaxRetries (inr problem) s)
  = Wrote StatusOK {| Error := false; Message := "" |} /\
  wire (snd (SDMHandler client config MaxRetries (inr problem) s)) = wire s /\
  backend (snd (SDMHandler client config MaxRetries (inr problem) s)) = backend s.
Proof.
  intros H. rewrite (SDMHandler_no_action client config MaxRetries problem s H).
  repeat split.
Qed.

(** A RESOLVED event for P2 on a store that knows P1 only, and an event in
    state MERGED. *)
Lemma no_action_events_witness :
  (fst (SDMHandler healthy cfg0 50 (inr P2_resolved) (boot (Document {[ "P1" := INC001 ]})))
   = Wrote StatusOK {| Error := false; Message := "" |} /\
   wire (snd (SDMHandler healthy cfg0 50 (inr P2_resolved)
                (boot (Document {[ "P1" := INC001 ]})))) = [] /\
   backend (snd (SDMHandler healthy cfg0 50 (inr P2_resolved)
                   (boot (Document {[ "P1" := INC001 ]})))) = O) /\
  (fst (SDMHandler healthy cfg0 50 (inr P3_merged) (boot Absent))
   = Wrote StatusOK {| Error := false; Message := "" |} /\
   wire (snd (SDMHandler healthy cfg0 50 (inr P3_merged) (boot Absent))) = [] /\
   backend (snd (SDMHandler healthy cfg0 50 (inr P3_merged) (boot Absent))) = O).
Proof.
  split.
  - apply (no_action_events healthy cfg0 50 P2_resolved (boot (Document {[ "P1" := INC001 ]}))).
    left. split; [reflexivity | vm_compute; reflexivity].
  - apply (no_action_events healthy cfg0 50 P3_merged (boot Absent)).
    right. split; discriminate.
Defined.

(** C6.  On a RESOLVED event whose problemID the store maps to [ticket]
    and whose close flow, retried, succeeds within the bound, the handler
    answers 200 with [error = false] and the message
    [Closed ticket: <number>] of the stored ticket, and [storage.json] is
    left as it was: the entry of the problemID is still there, unchanged. *)
Theorem resolved_event_keeps_entry {W} (client : SoapClient W) (config : Config)
    (MaxRetries : Z) (problem : Problem) (s : Process W) (ticket : CreateRequestResponse)
    (k : nat) (sk : Process W) (closed : UpdateObjectResponse) (s' : Process W) :
  State problem = "RESOLVED" ->
  mapping (storage_json s) !! ProblemID problem = Some ticket ->
  Z.of_nat k < MaxRetries ->
  after_failures (closeTicket client config (NewRequestHandle ticket)) k s = Some sk ->
  closeTicket client config (NewRequestHandle ticket) sk = (inr closed, s') ->
  fst (SDMHandler client config MaxRetries (inr problem) s)
  = Wrote StatusOK {| Error := false;
                      Message := "Closed ticket: " +:+ NewRequestNumber ticket |} /\
  storage_json (snd (SDMHandler client config MaxRetries (inr problem) s)) = storage_json s /\
  mapping (storage_json (snd (SDMHandler client config MaxRetries (inr problem) s)))
    !! ProblemID problem = Some ticket.
Proof.
  intros Hres Hfound Hlt Hk Hop.
  rewrite (SDMHandler_resolved_found client config MaxRetries problem ticket s Hres Hfound).
  rewrite (Do_retrying_success _ MaxRetries None k s sk closed s' Hlt Hk Hop).
  cbn [fst snd].
  assert (storage_json s' = storage_json s) as Hsame.
  { rewrite <- (close_failures_storage client config _ k s sk Hk).
    rewrite <- (closeTicket_storage client config (NewRequestHandle ticket) sk).
    rewrite Hop. reflexivity. }
  rewrite Hsame. auto.
Qed.

(** P1 is resolved once its ticket is on file; the backend refuses the
    first two calls. *)
Lemma resolved_event_keeps_entry_witness :
  fst (SDMHandler (flaky 2) cfg0 50 (inr P1_resolved) (boot (Document {[ "P1" := INC001 ]})))
  = Wrote StatusOK {| Error := false; Message := "Closed ticket: INC001" |} /\
  storage_json (snd (SDMHandler (flaky 2) cfg0 50 (inr P1_resolved)
                       (boot (Document {[ "P1" := INC001 ]}))))
  = Document {[ "P1" := INC001 ]} /\
  mapping (storage_json (snd (SDMHandler (flaky 2) cfg0 50 (inr P1_resolved)
                                (boot (Document {[ "P1" := INC001 ]})))))
    !! "P1" = Some INC001.
Proof.
  apply (resolved_event_keeps_entry (flaky 2) cfg0 50 P1_resolved
           (boot (Document {[ "P1" := INC001 ]})) INC001 2%nat
           (state_after (close_H1 (flaky 2)) 2 (boot (Document {[ "P1" := INC001 ]})))
           {| UpdateObjectReturn := "1" |}
           (snd (close_H1 (flaky 2)
                   (state_after (close_H1 (flaky 2)) 2
                      (boot (Document {[ "P1" := INC001 ]})))))).
  - reflexivity.
  - vm_compute. reflexivity.
  - lia.
  - vm_compute. reflexivity.
  - vm_compute. reflexivity.
Defined.

(** C3 (as amended).  Under a bound of at least one attempt, an event
    whose flow fails on every attempt is answered 500 with [error = true],
    and the message carries the number of attempts, [try.MaxRetries], and
    the error [try.Do] returns once the attempts are used up, which is the
    fixed [exceeded retry limit] of the package; for a close it names the
    ticket as well.  The error of the last attempt is not in the message. *)
Theorem exhausted_retries_outcome {W} (client : SoapClient W) (config : Config)
    (MaxRetries : Z) (problem : Problem) (s : Process W) :
  1 <= MaxRetries ->
  (forall s',
      State problem = "OPEN" ->
      after_failures
        (openTicket client config (ProblemDetailsText problem) (title problem) (Pcat problem))
        (Z.to_nat MaxRetries) s = Some s' ->
      SDMHandler client config MaxRetries (inr problem) s
      = (Wrote StatusInternalServerError
           {| Error := true;
              Message := "Could not open ticket after " +:+ itoa MaxRetries
                         +:+ " tries, error: exceeded retry limit" |}, s')) /\
  (forall ticket s',
      State problem = "RESOLVED" ->
      mapping (storage_json s) !! ProblemID problem = Some ticket ->
      after_failures (closeTicket client config (NewRequestHandle ticket))
        (Z.to_nat MaxRetries) s = Some s' ->
      SDMHandler client config MaxRetries (inr problem) s
      = (Wrote StatusInternalServerError
           {| Error := true;
              Message := "Could not close ticket " +:+ NewRequestNumber ticket
                         +:+ " after " +:+ itoa MaxRetries
                         +:+ " tries, error: exceeded retry limit" |}, s')).
Proof.
  intros Hge. split.
  - intros s' Hopen Hk.
    apply SDMHandler_open_exhausted; assumption.
  - intros ticket s' Hres Hfound Hk.
    rewrite (SDMHandler_resolved_found client config MaxRetries problem ticket s Hres Hfound).
    rewrite (Do_retrying_exhausted _ MaxRetries None s s' Hge Hk).
    reflexivity.
Qed.

(** The backend refuses every call and the bound is three: three logins
    and nothing else go out, for the OPEN event and for the RESOLVED one. *)
Lemma exhausted_retries_outcome_witness :
  SDMHandler down cfg0 3 (inr P1_open) (boot Absent)
  = (Wrote StatusInternalServerError
       {| Error := true;
          Message := "Could not open ticket after 3 tries, error: exceeded retry limit" |},
     {| backend := 3%nat;
        wire := [login_request cfg0; login_request cfg0; login_request cfg0];
        storage_json := Absent |}) /\
  SDMHandler down cfg0 3 (inr P1_resolved) (boot (Document {[ "P1" := INC001 ]}))
  = (Wrote StatusInternalServerError
       {| Error := true;
          Message :=
            "Could not close ticket INC001 after 3 tries, error: exceeded retry limit" |},
     {| backend := 3%nat;
        wire := [login_request cfg0; login_request cfg0; login_request cfg0];
        storage_json := Document {[ "P1" := INC001 ]} |}).
Proof.
  split.
  - apply (proj1 (exhausted_retries_outcome down cfg0 3 P1_open (boot Absent) ltac:(lia)));
      reflexivity.
  - apply (proj2 (exhausted_retries_outcome down cfg0 3 P1_resolved
                    (boot (Document {[ "P1" := INC001 ]})) ltac:(lia)) INC001).
    + reflexivity.
    + vm_compute. reflexivity.
    + reflexivity.
Defined.

(** C3, as stated: each of the fifty attempts of the create flow fails
    with [connection refused], and that text is not in the message of the
    answer. *)
Lemma exhausted_message_without_last_error :
  length (errors_of (open_P1 down) 50 (boot Absent)) = 50%nat /\
  last (errors_of (open_P1 down) 50 (boot Absent)) = Some "connection refused" /\
  fst (SDMHandler down cfg0 50 (inr P1_open) (boot Absent))
  = Wrote StatusInternalServerError
      {| Error := true;
         Message := "Could not open ticket after 50 tries, error: exceeded retry limit" |} /\
  contains "Could not open ticket after 50 tries, error: exceeded retry limit"
    "connection refused" = false.
Proof. vm_compute. repeat split. Qed.

Section MappingFacts.
Context {W : Type}.
Variable client : SoapClient W.
Variable config : Config.
Variable MaxRetries : Z.

(** Where each path of the handler leaves [storage.json]. *)
Lemma SDMHandler_storage body (s : Process W) :
  mapping (storage_json (snd (SDMHandler client config MaxRetries body s)))
  = mapping (storage_json s) \/
  exists problem ticket,
    body = inr problem /\ State problem = "OPEN" /\
    fst (SDMHandler client config MaxRetries body s)
    = Wrote StatusOK {| Error := false;
                        Message := "Opened ticket: " +:+ NewRequestNumber ticket |}.
Proof.
  destruct body as [e|problem]; [left; reflexivity|].
  unfold SDMHandler.
  destruct (decide (State problem = "OPEN")) as [Hopen|Hno].
  - pose proof (Do_create_storage client config MaxRetries problem None s) as Hst.
    destruct (Do_retrying_cases
                (openTicket client config (ProblemDetailsText problem) (title problem)
                   (Pcat problem)) MaxRetries None s)
      as [(ticket & s' & Hdo) | (s' & Hdo)]; rewrite Hdo in *; cbn [fst snd] in *.
    + destruct (storeNewProblem problem ticket s') as [s2|]; cbn [fst snd].
      * right. exists problem, ticket. auto.
      * left. rewrite Hst. reflexivity.
    + left. rewrite Hst. reflexivity.
  - destruct (decide (State problem = "RESOLVED")) as [Hres|Hnr]; [|left; reflexivity].
    pose proof (getTicketNumberFromStorage_state problem s) as [_ Hmap].
    destruct (getTicketNumberFromStorage problem s) as [[ticket|] s1];
      cbn [fst snd] in *; [|left; exact Hmap].
    pose proof (Do_close_storage client config MaxRetries (NewRequestHandle ticket) None s1)
      as Hst.
    destruct (try.Do MaxRetries (retrying (closeTicket client config (NewRequestHandle ticket)))
                (None, s1)) as [[e|] [r s2]]; cbn [fst snd] in *;
      left; rewrite Hst; exact Hmap.
Qed.
End MappingFacts.

(** C9.  The mapping of the store changes on the success path of an OPEN
    event only: after an event answered with [error = true], and after any
    event whose state is not OPEN (RESOLVED or other), the mapping is what
    it was before the event. *)
Theorem mapping_kept_off_open_success {W} (client : SoapClient W) (config : Config)
    (MaxRetries : Z) (body : Err + Problem) (s : Process W) :
  (exists status resp,
      fst (SDMHandler client config MaxRetries body s) = Wrote status resp /\
      Error resp = true) \/
  (exists problem, body = inr problem /\ State problem <> "OPEN") ->
  mapping (storage_json (snd (SDMHandler client config MaxRetries body s)))
  = mapping (storage_json s).
Proof.
  intros H.
  destruct (SDMHandler_storage client config MaxRetries body s)
    as [Hsame | (problem & ticket & -> & Hopen & Hserved)]; [exact Hsame|].
  exfalso. destruct H as [(status & resp & Hw & Herr) | (problem' & Heq & Hno)].
  - rewrite Hserved in Hw. injection Hw as _ <-. discriminate.
  - injection Heq as <-. contradiction.
Qed.

(** An OPEN event that fails on a dead backend, and a RESOLVED event that
    closes its ticket: the store keeps the entry of P1 and nothing else. *)
Lemma mapping_kept_off_open_success_witness :
  mapping (storage_json (snd (SDMHandler down cfg0 50 (inr P1_open)
                                (boot (Document {[ "P1" := INC001 ]})))))
  = mapping (Document {[ "P1" := INC001 ]}) /\
  mapping (storage_json (snd (SDMHandler healthy cfg0 50 (inr P1_resolved)
                                (boot (Document {[ "P1" := INC001 ]})))))
  = mapping (Document {[ "P1" := INC001 ]}).
Proof.
  split.
  - apply (mapping_kept_off_open_success down cfg0 50 (inr P1_open)
             (boot (Document {[ "P1" := INC001 ]}))).
    left. eexists _, _. split; [vm_compute; reflexivity | reflexivity].
  - apply (mapping_kept_off_open_success healthy cfg0 50 (inr P1_resolved)
             (boot (Document {[ "P1" := INC001 ]}))).
    right. exists P1_resolved. split; [reflexivity | discriminate].
Defined.

(** ** Sessions *)

Section SessionFacts.
Context {W : Type}.
Variable client : SoapClient W.
Variable config : Config.
Variable MaxRetries : Z.
Implicit Types s : Process W.

Lemma quiet_remote s s' : quiet s s' -> remote s' = remote s.
Proof. intros [Hb Hw]. unfold remote. rewrite Hb, Hw. reflexivity. Qed.

Lemma fresh_attempts_snoc n r r1 r2 :
  fresh_attempts client config n r r1 -> fresh_attempt client config r1 r2 ->
  fresh_attempts client config (S n) r r2.
Proof.
  intros H Hlast. induction H as [r|n r ra r1 Hfirst _ IH].
  - eapply fresh_attempts_S; [exact Hlast | apply fresh_attempts_O].
  - eapply fresh_attempts_S; [exact Hfirst | apply IH, Hlast].
Qed.

Section Retried.
Context {A : Type}.
Variable op : Process W -> (Err + A) * Process W.
Hypothesis op_fresh :
  forall x, fresh_attempt client config (remote x) (remote (snd (op x))).

Lemma after_failures_fresh k s sk :
  after_failures op k s = Some sk ->
  fresh_attempts client config k (remote s) (remote sk).
Proof.
  revert s. induction k as [|k IH]; intros s Hk.
  - injection Hk as ->. apply fresh_attempts_O.
  - rewrite after_failures_S in Hk. pose proof (op_fresh s) as H1.
    destruct (op s) as [[e|a] s1]; [|discriminate].
    eapply fresh_attempts_S; [exact H1 | apply IH, Hk].
Qed.

(** The retry loop makes at least one attempt and at most as many as the
    bound lets through, and nothing else. *)
Lemma Do_fresh r0 s :
  exists n,
    (1 <= n <= attempts_bound MaxRetries)%nat /\
    fresh_attempts client config n (remote s)
      (remote (snd (snd (try.Do MaxRetries (retrying op) (r0, s))))).
Proof.
  unfold try.Do.
  destruct (loop_retrying op (Z.to_nat (MaxRetries - 1)) 1 r0 s)
    as (k & sk & Hle & Hk & [(a & s' & Hop & ->) | (_ & e & s' & Hop & ->)]);
    exists (S k); cbn [fst snd];
    (split; [unfold attempts_bound; lia|]);
    (eapply fresh_attempts_snoc; [apply after_failures_fresh, Hk|]);
    pose proof (op_fresh sk) as H1; rewrite Hop in H1; exact H1.
Qed.
End Retried.

Lemma not_flow_due_parse e f : ~ flow_due (inl e) f.
Proof. intros (problem & [=] & _). Qed.

Lemma SDMHandler_fresh body s :
  exists n,
    fresh_attempts client config n (remote s)
      (remote (snd (SDMHandler client config MaxRetries body s))) /\
    (n <= attempts_bound MaxRetries)%nat /\
    (flow_due body (storage_json s) -> (1 <= n)%nat).
Proof.
  destruct body as [e|problem].
  { exists O. simpl. split; [apply fresh_attempts_O|]. split; [lia|].
    intros H. destruct (not_flow_due_parse e _ H). }
  unfold SDMHandler.
  destruct (decide (State problem = "OPEN")) as [Hopen|Hno].
  - destruct (Do_fresh
                (openTicket client config (ProblemDetailsText problem) (title problem)
                   (Pcat problem))
                (fun x => openTicket_fresh client config _ _ _ x) None s)
      as (n & Hn & Hchain).
    exists n.
    destruct (try.Do MaxRetries _ (None, s)) as [[e|] [[ticket|] s1]]; cbn [fst snd] in *;
      try (split; [exact Hchain | split; [lia | intros _; lia]]).
    destruct (storeNewProblem problem ticket s1) as [s2|] eqn:Hstore; cbn [snd].
    + destruct (storeNewProblem_Some problem ticket s1 s2 Hstore) as (_ & Hq & _).
      rewrite (quiet_remote s1 s2 Hq).
      split; [exact Hchain | split; [lia | intros _; lia]].
    + split; [exact Hchain | split; [lia | intros _; lia]].
  - destruct (decide (State problem = "RESOLVED")) as [Hres|Hnr].
    2:{ exists O. cbn [snd]. split; [apply fresh_attempts_O|]. split; [lia|].
        intros (p & [= <-] & [Ho | [Hr _]]); contradiction. }
    pose proof (getTicketNumberFromStorage_state problem s) as [Hq _].
    pose proof (getTicketNumberFromStorage_result problem s) as Hfound.
    destruct (getTicketNumberFromStorage problem s) as [[ticket|] s1]; cbn [fst snd] in *.
    + destruct (Do_fresh (closeTicket client config (NewRequestHandle ticket))
                  (fun x => closeTicket_fresh client config _ x) None s1)
        as (n & Hn & Hchain).
      exists n. rewrite (quiet_remote s s1 Hq) in Hchain.
      destruct (try.Do MaxRetries _ (None, s1)) as [[e|] [r s2]]; cbn [fst snd] in *;
        (split; [exact Hchain | split; [lia | intros _; lia]]).
    + exists O. rewrite (quiet_remote s s1 Hq).
      split; [apply fresh_attempts_O|]. split; [lia|].
      intros (p & [= <-] & [Ho | [_ Hsome]]); [contradiction|].
      rewrite <- Hfound in Hsome. destruct Hsome as [? [=]].
Qed.
End SessionFacts.

(** C10.  Every invocation of the create flow and of the close flow is
    one attempt as the backend sees it: its login is the first call to
    arrive, and the one or two calls that follow carry the session that
    very login opened (none follows a login that opened no session).  What
    arrives at the backend for an event is a number of such attempts in a
    row and nothing else, at least one when the event asks for a flow and
    at most [max 1 MaxRetries], so no call goes out under a session of an
    earlier attempt or of an earlier event. *)
Theorem fresh_login_per_attempt {W} (client : SoapClient W) (config : Config)
    (MaxRetries : Z) :
  (forall description summary pcat (s : Process W),
      fresh_attempt client config (remote s)
        (remote (snd (openTicket client config description summary pcat s)))) /\
  (forall objectHandle (s : Process W),
      fresh_attempt client config (remote s)
        (remote (snd (closeTicket client config objectHandle s)))) /\
  (forall body (s : Process W),
      exists n,
        fresh_attempts client config n (remote s)
          (remote (snd (SDMHandler client config MaxRetries body s))) /\
        (n <= attempts_bound MaxRetries)%nat /\
        (flow_due body (storage_json s) -> (1 <= n)%nat)).
Proof.
  split; [|split]; intros.
  - apply openTicket_fresh.
  - apply closeTicket_fresh.
  - apply SDMHandler_fresh.
Qed.

(** The OPEN event of P1 against a backend that refuses its first four
    calls. *)
Lemma fresh_login_per_attempt_witness :
  exists n,
    fresh_attempts (flaky 4) cfg0 n (remote (boot Absent))
      (remote (snd (SDMHandler (flaky 4) cfg0 50 (inr P1_open) (boot Absent)))) /\
    (1 <= n <= attempts_bound 50)%nat.
Proof.
  destruct (proj2 (proj2 (fresh_login_per_attempt (flaky 4) cfg0 50))
              (inr P1_open) (boot Absent)) as (n & Hchain & Hup & Hlow).
  exists n. split; [exact Hchain|]. split; [|exact Hup].
  apply Hlow. exists P1_open. split; [reflexivity|]. left. reflexivity.
Defined.

(** * Further properties *)

(** ** The association store on its own *)

Lemma mapping_Document m : mapping (Document m) = m.
Proof. reflexivity. Qed.

Lemma after_store_storage {W} (p : Problem) (t : CreateRequestResponse) (s : Process W) :
  after_store p t s
  = with_storage
      (match storage_json s with
       | NilDocument => NilDocument
       | f => Document (<[ProblemID p := t]> (mapping f))
       end) s.
Proof.
  unfold after_store, with_storage.
  destruct (decide (storage_json s = NilDocument)) as [Hf|Hf].
  - rewrite (storeNewProblem_panics p t s Hf), Hf. destruct s; simpl in *. congruence.
  - rewrite (storeNewProblem_returns p t s Hf). simpl.
    destruct (storage_json s); try reflexivity. contradiction.
Qed.

(** X1.  Upserts of different problems do not disturb each other: the
    lookup of one problem returns after the upsert of another what it
    returned before, and two such upserts leave the same file in either
    order.  ([after_store] is the process after the call, returned or
    panicked.) *)
Theorem stores_of_other_problems {W} (p1 p2 : Problem) (t1 t2 : CreateRequestResponse)
    (s : Process W) :
  ProblemID p1 <> ProblemID p2 ->
  fst (getTicketNumberFromStorage p2 (after_store p1 t1 s))
  = fst (getTicketNumberFromStorage p2 s) /\
  after_store p1 t1 (after_store p2 t2 s) = after_store p2 t2 (after_store p1 t1 s).
Proof.
  intros Hne. split.
  - rewrite !getTicketNumberFromStorage_result, after_store_storage.
    unfold with_storage. cbn [storage_json].
    destruct (storage_json s); try reflexivity;
      unfold mapping at 1; simpl; apply lookup_insert_ne, Hne.
  - rewrite !after_store_storage. unfold with_storage. cbn [storage_json backend wire].
    f_equal.
    destruct (storage_json s); try reflexivity;
      unfold mapping; simpl; f_equal; apply insert_insert_ne; congruence.
Qed.

Lemma stores_of_other_problems_witness :
  fst (getTicketNumberFromStorage P2_resolved
         (after_store P1_open INC001 (boot Unparsable)))
  = fst (getTicketNumberFromStorage P2_resolved (boot Unparsable)) /\
  after_store P1_open INC001 (after_store P2_resolved INC001 (boot Unparsable))
  = after_store P2_resolved INC001 (after_store P1_open INC001 (boot Unparsable)).
Proof.
  apply (stores_of_other_problems P1_open P2_resolved INC001 INC001 (boot Unparsable)).
  discriminate.
Defined.

(** X2.  The last upsert of a problemID wins: when an upsert returns, an
    upsert of the same problemID after it returns as well, leaves the file
    the later upsert alone would have left, and the lookup returns the later
    ticket. *)
Theorem store_overwrites {W} (p p' : Problem) (t t' : CreateRequestResponse)
    (s s1 : Process W) :
  ProblemID p' = ProblemID p ->
  storeNewProblem p t s = Some s1 ->
  exists s2,
    storeNewProblem p' t' s1 = Some s2 /\
    storeNewProblem p' t' s = Some s2 /\
    fst (getTicketNumberFromStorage p s2) = Some t'.
Proof.
  intros Hid H1.
  destruct (storeNewProblem_Some p t s s1 H1) as (Hf & [Hb Hw] & Hst).
  assert (storage_json s1 <> NilDocument) as Hf1 by (rewrite Hst; discriminate).
  eexists. split; [apply storeNewProblem_returns, Hf1|].
  split.
  - rewrite (storeNewProblem_returns p' t' s Hf). rewrite Hb, Hw, Hst, Hid.
    rewrite mapping_Document, insert_insert_eq. reflexivity.
  - rewrite getTicketNumberFromStorage_result. cbn [storage_json].
    rewrite mapping_Document, Hid. apply lookup_insert_eq.
Qed.

Lemma store_overwrites_witness :
  exists s2,
    storeNewProblem P1_resolved
      {| NewRequestHandle := "H2"; NewRequestNumber := "INC002" |}
      (after_store P1_open INC001 (boot Absent)) = Some s2 /\
    storeNewProblem P1_resolved
      {| NewRequestHandle := "H2"; NewRequestNumber := "INC002" |} (boot Absent) = Some s2 /\
    fst (getTicketNumberFromStorage P1_open s2)
    = Some {| NewRequestHandle := "H2"; NewRequestNumber := "INC002" |}.
Proof.
  apply (store_overwrites P1_open P1_resolved INC001
           {| NewRequestHandle := "H2"; NewRequestNumber := "INC002" |} (boot Absent)
           (after_store P1_open INC001 (boot Absent))); reflexivity.
Defined.

(** X3.  An upsert on a [storage.json] that is missing or does not decode
    leaves a document with the new entry and nothing else: what the file
    held is discarded.  The upsert panics exactly on the file that decodes
    to a [nil] map, and then the file is left as it was; whenever it
    returns, the file holds a [problems] object with the new entry, so no
    upsert can leave a file on which the next one panics. *)
Theorem store_on_unusable_file {W} (p : Problem) (t : CreateRequestResponse) (s : Process W) :
  (storage_json s = Absent \/ storage_json s = Unparsable ->
   storeNewProblem p t s = Some (with_storage (Document {[ ProblemID p := t ]}) s)) /\
  (storeNewProblem p t s = None <-> storage_json s = NilDocument) /\
  (forall s',
      storeNewProblem p t s = Some s' ->
      exists m, storage_json s' = Document m /\ m !! ProblemID p = Some t /\
                forall p' t', storeNewProblem p' t' s' <> None).
Proof.
  split; [|split].
  - intros [H|H]; unfold storeNewProblem, with_storage; rewrite H; reflexivity.
  - split.
    + intros H. destruct (decide (storage_json s = NilDocument)) as [Hf|Hf]; [exact Hf|].
      rewrite (storeNewProblem_returns p t s Hf) in H. discriminate.
    + apply storeNewProblem_panics.
  - intros s' H. destruct (storeNewProblem_Some p t s s' H) as (_ & _ & Hst).
    eexists. split; [exact Hst|]. split; [apply lookup_insert_eq|].
    intros p' t'. rewrite storeNewProblem_returns by (rewrite Hst; discriminate).
    discriminate.
Qed.

Lemma store_on_unusable_file_witness :
  storeNewProblem P1_open INC001 (boot Unparsable)
  = Some (with_storage (Document {[ "P1" := INC001 ]}) (boot Unparsable)).
Proof.
  apply (proj1 (store_on_unusable_file P1_open INC001 (boot Unparsable))).
  right. reflexivity.
Defined.

Lemma openOrCreate_idem_file f : openOrCreate (openOrCreate f) = openOrCreate f.
Proof. destruct f; reflexivity. Qed.

(** X4.  A lookup on a [storage.json] that is missing or does not decode
    finds no ticket, for any problem, and leaves a file that is there and
    does not decode (the missing file is created empty); on any file, one
    lookup settles it: a further lookup, of any problem, returns what the
    store held for it and changes nothing. *)
Theorem lookup_on_unusable_file {W} (p p' : Problem) (s : Process W) :
  (storage_json s = Absent \/ storage_json s = Unparsable ->
   getTicketNumberFromStorage p s = (None, with_storage Unparsable s)) /\
  getTicketNumberFromStorage p' (snd (getTicketNumberFromStorage p s))
  = (fst (getTicketNumberFromStorage p' s), snd (getTicketNumberFromStorage p s)).
Proof.
  split.
  - intros [H|H]; unfold getTicketNumberFromStorage, with_storage; rewrite H; reflexivity.
  - unfold getTicketNumberFromStorage. simpl.
    rewrite openOrCreate_idem_file. reflexivity.
Qed.

Lemma lookup_on_unusable_file_witness :
  getTicketNumberFromStorage P1_resolved (boot Absent)
  = (None, with_storage Unparsable (boot Absent)).
Proof.
  apply (proj1 (lookup_on_unusable_file P1_resolved P1_resolved (boot Absent))).
  left. reflexivity.
Defined.

(** ** The SOAP wrappers and the two flows, step by step *)

(** Case on the backend's answers in the hypothesis [H]. *)
Ltac run_flow_in H :=
  unfold openTicket, closeTicket, login, getHandle, createRequest, updateObject,
    bind, client_Call, client_Unmarshal in H;
  repeat (simpl in H;
          match type of H with
          | context [Call ?c ?m ?p ?w] =>
              let e := fresh "e" in let w1 := fresh "w" in
              destruct (Call c m p w) as [[e|] w1]
          | context [Unmarshal_LoginResponse ?c ?w] =>
              destruct (Unmarshal_LoginResponse c w) as [?|[?]]
          | context [Unmarshal_GetHandleForUserIDResponse ?c ?w] =>
              destruct (Unmarshal_GetHandleForUserIDResponse c w) as [?|[?]]
          | context [Unmarshal_CreateRequestResponse ?c ?w] =>
              destruct (Unmarshal_CreateRequestResponse c w) as [?|?] eqn:?
          | context [Unmarshal_UpdateObjectResponse ?c ?w] =>
              destruct (Unmarshal_UpdateObjectResponse c w) as [?|?] eqn:?
          end);
  simpl in H.

Section FailFast.
Context {W : Type}.
Variable client : SoapClient W.
Variable config : Config.

(** X6.  The create flow stops at its first step that fails and returns
    the error of that step: after a failed login only the login is on the
    wire, after a failed [getHandleForUserid] the login and that call, and
    no [createRequest] is sent in either case.  The ticket of a create flow
    that succeeds is what the answer to [createRequest] decodes to. *)
Theorem openTicket_fails_fast description summary pcat (s : Process W) :
  (forall e s1,
      login client (SDMUsername config) (SDMPassword config) s = (inl e, s1) ->
      openTicket client config description summary pcat s = (inl e, s1) /\
      wire s1 = (wire s ++ [login_request config])%list) /\
  (forall l s1 e s2,
      login client (SDMUsername config) (SDMPassword config) s = (inr l, s1) ->
      getHandle client (LoginReturn l) (SDMUsername config) s1 = (inl e, s2) ->
      openTicket client config description summary pcat s = (inl e, s2) /\
      wire s2 = (wire s ++ [ login_request config;
                             getHandleForUserid_request config (LoginReturn l) ])%list) /\
  (forall ticket s',
      openTicket client config description summary pcat s = (inr ticket, s') ->
      Unmarshal_CreateRequestResponse client (backend s') = inr ticket).
Proof.
  split; [|split].
  - intros e s1 Hl. pose proof (login_send client config s) as Hs.
    unfold openTicket, bind. rewrite Hl in *. cbn [snd] in Hs. subst s1.
    split; [reflexivity | apply send_wire].
  - intros l s1 e s2 Hl Hh. pose proof (login_send client config s) as Hs.
    pose proof (getHandle_send client config (LoginReturn l) s1) as Hs2.
    unfold openTicket, bind. rewrite Hl in *. rewrite Hh in *. cbn [snd] in *. subst s2 s1.
    split; [reflexivity|]. rewrite !send_wire, <- app_assoc. reflexivity.
  - intros ticket s' H. run_flow_in H; try discriminate.
    injection H as -> <-. simpl. assumption.
Qed.

(** X7.  The close flow stops at a failed login: it returns the error of
    the login, only the login is on the wire and no [updateObject] is sent.
    Otherwise it returns what [updateObject] returns, error or result. *)
Theorem closeTicket_fails_fast objectHandle (s : Process W) :
  (forall e s1,
      login client (SDMUsername config) (SDMPassword config) s = (inl e, s1) ->
      closeTicket client config objectHandle s = (inl e, s1) /\
      wire s1 = (wire s ++ [login_request config])%list) /\
  (forall l s1,
      login client (SDMUsername config) (SDMPassword config) s = (inr l, s1) ->
      closeTicket client config objectHandle s
      = exchange client (updateObject_request (LoginReturn l) objectHandle)
          (Unmarshal_UpdateObjectResponse client) s1).
Proof.
  split.
  - intros e s1 Hl. pose proof (login_send client config s) as Hs.
    unfold closeTicket, bind. rewrite Hl in *. cbn [snd] in Hs. subst s1.
    split; [reflexivity | apply send_wire].
  - intros l s1 Hl. unfold closeTicket, bind. rewrite Hl.
    unfold exchange, send, updateObject_request, alternating, str. simpl.
    run_flow; reflexivity.
Qed.
End FailFast.

(** A dead backend; a backend that refuses its second call only; a healthy
    one. *)
Lemma openTicket_fails_fast_witness :
  (open_P1 down (boot Absent)
   = (inl "connection refused", send down (login_request cfg0) (boot Absent)) /\
   wire (send down (login_request cfg0) (boot Absent)) = [login_request cfg0]) /\
  (open_P1 (scripted (fun n => bool_decide (n = 1%nat))) (boot Absent)
   = (inl "connection refused",
      send_all (scripted (fun n => bool_decide (n = 1%nat)))
        [login_request cfg0; getHandleForUserid_request cfg0 "SID-1"] (boot Absent)) /\
   wire (send_all (scripted (fun n => bool_decide (n = 1%nat)))
           [login_request cfg0; getHandleForUserid_request cfg0 "SID-1"] (boot Absent))
   = [login_request cfg0; getHandleForUserid_request cfg0 "SID-1"]) /\
  Unmarshal_CreateRequestResponse healthy (backend (snd (open_P1 healthy (boot Absent))))
  = inr INC001.
Proof.
  split; [|split].
  - apply (proj1 (openTicket_fails_fast down cfg0 (ProblemDetailsText P1_open)
                    (title P1_open) (Pcat P1_open) (boot Absent))).
    vm_compute. reflexivity.
  - apply (proj1 (proj2 (openTicket_fails_fast (scripted (fun n => bool_decide (n = 1%nat)))
                           cfg0 (ProblemDetailsText P1_open) (title P1_open)
                           (Pcat P1_open) (boot Absent)))
             {| LoginReturn := "SID-1" |}
             (send (scripted (fun n => bool_decide (n = 1%nat))) (login_request cfg0)
                (boot Absent))).
    + vm_compute. reflexivity.
    + vm_compute. reflexivity.
  - apply (proj2 (proj2 (openTicket_fails_fast healthy cfg0 (ProblemDetailsText P1_open)
                           (title P1_open) (Pcat P1_open) (boot Absent)))).
    vm_compute. reflexivity.
Defined.

Lemma closeTicket_fails_fast_witness :
  (close_H1 down (boot Absent)
   = (inl "connection refused", send down (login_request cfg0) (boot Absent)) /\
   wire (send down (login_request cfg0) (boot Absent)) = [login_request cfg0]) /\
  close_H1 healthy (boot Absent)
  = exchange healthy (updateObject_request "SID-1" "H1")
      (Unmarshal_UpdateObjectResponse healthy)
      (send healthy (login_request cfg0) (boot Absent)).
Proof.
  split.
  - apply (proj1 (closeTicket_fails_fast down cfg0 "H1" (boot Absent))).
    vm_compute. reflexivity.
  - apply (proj2 (closeTicket_fails_fast healthy cfg0 "H1" (boot Absent))
             {| LoginReturn := "SID-1" |}).
    vm_compute. reflexivity.
Defined.

(** ** The handler over all its paths *)

Section HandlerPaths.
Context {W : Type}.
Variable client : SoapClient W.
Variable config : Config.
Variable MaxRetries : Z.
Implicit Types (s : Process W) (body : Err + Problem).

Lemma store_on_nil problem ticket s :
  storeNewProblem problem ticket s = None -> storage_json s = NilDocument.
Proof.
  intros H. destruct (decide (storage_json s = NilDocument)) as [Hf|Hf]; [exact Hf|].
  rewrite (storeNewProblem_returns problem ticket s Hf) in H. discriminate.
Qed.

(** What an event does to the mapping: nothing, or, for an OPEN event, the
    upsert of its problemID. *)
Lemma SDMHandler_mapping body s :
  mapping (storage_json (snd (SDMHandler client config MaxRetries body s)))
  = mapping (storage_json s) \/
  exists problem ticket,
    body = inr problem /\ State problem = "OPEN" /\
    mapping (storage_json (snd (SDMHandler client config MaxRetries body s)))
    = <[ProblemID problem := ticket]> (mapping (storage_json s)).
Proof.
  destruct body as [e|problem]; [left; reflexivity|].
  unfold SDMHandler.
  destruct (decide (State problem = "OPEN")) as [Hopen|Hno].
  - pose proof (Do_create_storage client config MaxRetries problem None s) as Hst.
    destruct (Do_retrying_cases
                (openTicket client config (ProblemDetailsText problem) (title problem)
                   (Pcat problem)) MaxRetries None s)
      as [(ticket & s' & Hdo) | (s' & Hdo)]; rewrite Hdo in *; cbn [fst snd] in *.
    + destruct (storeNewProblem problem ticket s') as [s2|] eqn:Hstore; cbn [snd].
      * right. exists problem, ticket. repeat split; [exact Hopen|].
        rewrite (storeNewProblem_mapping problem ticket s' s2 Hstore), Hst. reflexivity.
      * left. rewrite Hst. reflexivity.
    + left. rewrite Hst. reflexivity.
  - destruct (decide (State problem = "RESOLVED")) as [Hres|Hnr]; [|left; reflexivity].
    pose proof (getTicketNumberFromStorage_state problem s) as [_ Hmap].
    destruct (getTicketNumberFromStorage problem s) as [[ticket|] s1];
      cbn [fst snd] in *; [|left; exact Hmap].
    pose proof (Do_close_storage client config MaxRetries (NewRequestHandle ticket) None s1)
      as Hst.
    destruct (try.Do MaxRetries (retrying (closeTicket client config (NewRequestHandle ticket)))
                (None, s1)) as [[e|] [r s2]]; cbn [fst snd] in *;
      left; rewrite Hst; exact Hmap.
Qed.

(** One event that is not an OPEN of [pid] leaves the entry of [pid]. *)
Lemma SDMHandler_keeps_entry body s pid :
  (forall problem, body = inr problem -> State problem = "OPEN" -> ProblemID problem <> pid) ->
  mapping (storage_json (snd (SDMHandler client config MaxRetries body s))) !! pid
  = mapping (storage_json s) !! pid.
Proof.
  intros Hother.
  destruct (SDMHandler_mapping body s) as [-> | (problem & ticket & Hb & Hopen & ->)];
    [reflexivity|].
  apply lookup_insert_ne. exact (Hother problem Hb Hopen).
Qed.

(** X8.  The handler writes an answer on every path but one, and status
    and error flag go together: 400 with [error = true] for a body that does
    not decode, and then nothing is sent and nothing is touched; 500 with
    [error = true] only for an OPEN or a RESOLVED event; 200 with
    [error = false] otherwise.  The one path with no answer is the panic of
    the upsert, for an OPEN event on a [storage.json] that decodes to a
    [nil] map, which is left as it is; the dereference of the ticket at line
    136 never panics. *)
Theorem handler_status_and_flag body s :
  (exists status resp,
      fst (SDMHandler client config MaxRetries body s) = Wrote status resp /\
      ((status = StatusBadRequest /\ Error resp = true /\
        (exists e, body = inl e) /\ snd (SDMHandler client config MaxRetries body s) = s) \/
       (status = StatusInternalServerError /\ Error resp = true /\
        exists problem, body = inr problem /\
                        (State problem = "OPEN" \/ State problem = "RESOLVED")) \/
       (status = StatusOK /\ Error resp = false /\ exists problem, body = inr problem))) \/
  (fst (SDMHandler client config MaxRetries body s)
   = Panic "assignment to entry in nil map" /\
   (exists problem, body = inr problem /\ State problem = "OPEN") /\
   storage_json s = NilDocument /\
   storage_json (snd (SDMHandler client config MaxRetries body s)) = NilDocument).
Proof.
  destruct body as [e|problem].
  { left. simpl. eexists _, _. split; [reflexivity|]. left. eauto 10. }
  unfold SDMHandler.
  destruct (decide (State problem = "OPEN")) as [Hopen|Hno].
  - pose proof (Do_create_storage client config MaxRetries problem None s) as Hst.
    destruct (Do_retrying_cases
                (openTicket client config (ProblemDetailsText problem) (title problem)
                   (Pcat problem)) MaxRetries None s)
      as [(ticket & s' & Hdo) | (s' & Hdo)]; rewrite Hdo in *; cbn [fst snd] in *.
    + destruct (storeNewProblem problem ticket s') as [s2|] eqn:Hstore; cbn [fst snd].
      * left. eexists _, _. split; [reflexivity|]. right. right. eauto 10.
      * right. apply store_on_nil in Hstore. rewrite <- Hst. eauto 10.
    + left. eexists _, _. split; [reflexivity|]. right. left. eauto 10.
  - left. destruct (decide (State problem = "RESOLVED")) as [Hres|Hnr].
    + destruct (getTicketNumberFromStorage problem s) as [[ticket|] s1].
      * destruct (try.Do MaxRetries
                    (retrying (closeTicket client config (NewRequestHandle ticket)))
                    (None, s1)) as [[e|] [r s2]]; cbn [fst snd];
          eexists _, _; (split; [reflexivity|]).
        -- right. left. eauto 10.
        -- right. right. eauto 10.
      * eexists _, _. split; [reflexivity|]. right. right. eauto 10.
    + eexists _, _. split; [reflexivity|]. right. right. eauto 10.
Qed.

(** X9.  An event never removes an entry of the store, and it leaves the
    entry of every problemID other than its own as it was. *)
Theorem handler_touches_own_entry_only body s :
  (forall pid,
      is_Some (mapping (storage_json s) !! pid) ->
      is_Some (mapping (storage_json (snd (SDMHandler client config MaxRetries body s)))
                 !! pid)) /\
  (forall pid,
      (forall problem, body = inr problem -> ProblemID problem <> pid) ->
      mapping (storage_json (snd (SDMHandler client config MaxRetries body s))) !! pid
      = mapping (storage_json s) !! pid).
Proof.
  split.
  - intros pid Hsome.
    destruct (SDMHandler_mapping body s) as [-> | (problem & ticket & Hb & Hopen & ->)];
      [exact Hsome|].
    rewrite lookup_insert. case_decide; [eauto | exact Hsome].
  - intros pid Hother. apply SDMHandler_keeps_entry.
    intros problem Hb _. exact (Hother problem Hb).
Qed.

(** X10.  The entry of a problemID survives every sequence of events in
    which that problemID is not opened again: RESOLVED events, events of
    other states, bodies that do not decode and events of other problems,
    whatever their outcome, leave the ticket reference where it is. *)
Theorem entry_survives_other_events (bodies : list (Err + Problem)) s pid ticket :
  Forall (fun body => forall problem,
              body = inr problem -> State problem = "OPEN" -> ProblemID problem <> pid)
    bodies ->
  mapping (storage_json s) !! pid = Some ticket ->
  mapping (storage_json (serve_all client config MaxRetries bodies s)) !! pid = Some ticket.
Proof.
  intros Hall. revert s. induction Hall as [|body bodies Hbody _ IH]; intros s Hentry.
  - exact Hentry.
  - unfold serve_all in *. simpl. apply IH.
    rewrite (SDMHandler_keeps_entry body s pid Hbody). exact Hentry.
Qed.
End HandlerPaths.

Lemma handler_touches_own_entry_only_witness :
  mapping (storage_json (snd (SDMHandler healthy cfg0 50 (inr P1_open)
                                (boot (Document {[ "P2" := INC001 ]}))))) !! "P2"
  = mapping (storage_json (boot (Document {[ "P2" := INC001 ]}))) !! "P2".
Proof.
  apply (proj2 (handler_touches_own_entry_only healthy cfg0 50 (inr P1_open)
                  (boot (Document {[ "P2" := INC001 ]}))) "P2").
  intros problem [= <-]. discriminate.
Defined.

(** P1 stays on file through a RESOLVED event for it, a body that does not
    decode, a MERGED event and an OPEN of another problem. *)
Lemma entry_survives_other_events_witness :
  mapping (storage_json
             (serve_all (flaky 3) cfg0 50
                [ inr P1_resolved; inl "unexpected EOF"; inr P3_merged;
                  inr {| Pcat := ""; ProblemID := "P9"; State := "OPEN";
                         ProblemDetailsText := ""; ProblemTitle := "" |} ]
                (boot (Document {[ "P1" := INC001 ]})))) !! "P1"
  = Some INC001.
Proof.
  apply (entry_survives_other_events (flaky 3) cfg0 50).
  - repeat constructor; intros problem [= <-]; discriminate.
  - vm_compute. reflexivity.
Defined.

(** ** What the store has no part in *)

Section StoreIndependence.
Context {St A : Type}.
Variable op : St -> (Err + A) * St.
Variable g : St -> St.
Hypothesis op_g : forall x, op (g x) = (fst (op x), g (snd (op x))).

(** A change of the state that [op] carries along is carried along by the
    retry loop. *)
Lemma loop_retrying_through left attempt r0 s :
  try.loop left (retrying op) attempt (r0, g s)
  = (fst (try.loop left (retrying op) attempt (r0, s)),
     (fst (snd (try.loop left (retrying op) attempt (r0, s))),
      g (snd (snd (try.loop left (retrying op) attempt (r0, s)))))).
Proof.
  revert attempt r0 s. induction left as [|left IH]; intros attempt r0 s.
  - simpl. rewrite op_g. destruct (op s) as [[e|a] s1]; reflexivity.
  - simpl. rewrite op_g. destruct (op s) as [[e|a] s1]; simpl; [|reflexivity].
    apply IH.
Qed.
End StoreIndependence.

Section OpenIgnoresStore.
Context {W : Type}.
Variable client : SoapClient W.
Variable config : Config.
Variable MaxRetries : Z.

Lemma openTicket_with_storage f description summary pcat (s : Process W) :
  openTicket client config description summary pcat (with_storage f s)
  = (fst (openTicket client config description summary pcat s),
     with_storage f (snd (openTicket client config description summary pcat s))).
Proof. unfold with_storage. run_flow; reflexivity. Qed.

(** X11.  An OPEN event is served without a look at the store: whatever
    [storage.json] holds, also a ticket for the same problemID, the handler
    sends the same requests and leaves the backend in the same state; and
    it gives the same answer on any two files neither of which decodes to a
    [nil] map. *)
Theorem open_event_ignores_store (problem : Problem) (f : File) (s : Process W) :
  State problem = "OPEN" ->
  wire (snd (SDMHandler client config MaxRetries (inr problem) (with_storage f s)))
  = wire (snd (SDMHandler client config MaxRetries (inr problem) s)) /\
  backend (snd (SDMHandler client config MaxRetries (inr problem) (with_storage f s)))
  = backend (snd (SDMHandler client config MaxRetries (inr problem) s)) /\
  (f <> NilDocument -> storage_json s <> NilDocument ->
   fst (SDMHandler client config MaxRetries (inr problem) (with_storage f s))
   = fst (SDMHandler client config MaxRetries (inr problem) s)).
Proof.
  intros Hopen. unfold SDMHandler.
  destruct (decide (State problem = "OPEN")) as [_|Hn]; [|contradiction].
  pose proof (Do_create_storage client config MaxRetries problem None s) as Hst.
  unfold try.Do in *.
  rewrite (loop_retrying_through
             (openTicket client config (ProblemDetailsText problem) (title problem)
                (Pcat problem))
             (with_storage f)
             (fun x => openTicket_with_storage f _ _ _ x)).
  destruct (try.loop _ _ 1 (None, s)) as [[e|] [[ticket|] s1]]; cbn [fst snd] in *;
    try (repeat split; fail).
  destruct (storeNewProblem problem ticket (with_storage f s1)) as [s2|] eqn:H1;
    destruct (storeNewProblem problem ticket s1) as [s3|] eqn:H2; cbn [fst snd].
  - apply storeNewProblem_Some in H1. destruct H1 as (_ & [Hb1 Hw1] & _).
    apply storeNewProblem_Some in H2. destruct H2 as (_ & [Hb2 Hw2] & _).
    simpl in Hb1, Hw1. repeat split; try congruence.
  - apply storeNewProblem_Some in H1. destruct H1 as (_ & [Hb1 Hw1] & _).
    apply store_on_nil in H2. simpl in Hb1, Hw1.
    repeat split; congruence.
  - apply storeNewProblem_Some in H2. destruct H2 as (_ & [Hb2 Hw2] & _).
    apply store_on_nil in H1. simpl in H1.
    repeat split; simpl; congruence.
  - repeat split.
Qed.
End OpenIgnoresStore.

(** P1 is opened once more while its ticket is on file: the same three
    requests go out and the same answer comes back as on a missing file. *)
Lemma open_event_ignores_store_witness :
  fst (SDMHandler healthy cfg0 50 (inr P1_open)
         (with_storage (Document {[ "P1" := INC001 ]}) (boot Absent)))
  = fst (SDMHandler healthy cfg0 50 (inr P1_open) (boot Absent)).
Proof.
  apply (open_event_ignores_store healthy cfg0 50 P1_open
           (Document {[ "P1" := INC001 ]}) (boot Absent) ltac:(reflexivity));
    discriminate.
Defined.

(** ** How much goes on the wire *)

Section Measures.
Context {St A : Type}.
Variable op : St -> (Err + A) * St.
Variable m : St -> nat.

(** Where the retry loop ends: after [k] failures, at most as many as the
    bound lets through, and one more invocation. *)
Lemma loop_retrying_final left attempt r0 s :
  exists k sk,
    (k <= left)%nat /\ after_failures op k s = Some sk /\
    snd (snd (try.loop left (retrying op) attempt (r0, s))) = snd (op sk).
Proof.
  destruct (loop_retrying op left attempt r0 s)
    as (k & sk & Hle & Hk & [(a & s' & Hop & ->) | (_ & e & s' & Hop & ->)]);
    exists k, sk; rewrite Hop; auto.
Qed.

Lemma after_failures_adds c k s sk :
  (forall x, m (snd (op x)) = (m x + c)%nat) ->
  after_failures op k s = Some sk -> m sk = (m s + k * c)%nat.
Proof.
  intros Hstep. revert s. induction k as [|k IH]; intros s Hk.
  - injection Hk as ->. lia.
  - rewrite after_failures_S in Hk. pose proof (Hstep s) as H1.
    destruct (op s) as [[e|a] s1]; [|discriminate].
    rewrite (IH s1 Hk). simpl in H1. lia.
Qed.

Lemma after_failures_adds_at_most c k s sk :
  (forall x, (m (snd (op x)) <= m x + c)%nat) ->
  after_failures op k s = Some sk -> (m sk <= m s + k * c)%nat.
Proof.
  intros Hstep. revert s. induction k as [|k IH]; intros s Hk.
  - injection Hk as ->. lia.
  - rewrite after_failures_S in Hk. pose proof (Hstep s) as H1.
    destruct (op s) as [[e|a] s1]; [|discriminate].
    pose proof (IH s1 Hk). simpl in H1. lia.
Qed.

Lemma Do_retrying_adds c MaxRetries r0 s :
  (forall x, m (snd (op x)) = (m x + c)%nat) ->
  (m s + c <= m (snd (snd (try.Do MaxRetries (retrying op) (r0, s)))))%nat /\
  (m (snd (snd (try.Do MaxRetries (retrying op) (r0, s))))
   <= m s + attempts_bound MaxRetries * c)%nat.
Proof.
  intros Hstep. unfold try.Do, attempts_bound.
  destruct (loop_retrying_final (Z.to_nat (MaxRetries - 1)) 1 r0 s)
    as (k & sk & Hle & Hk & ->).
  rewrite Hstep, (after_failures_adds c k s sk Hstep Hk).
  split; [lia|]. nia.
Qed.

Lemma Do_retrying_adds_at_most c MaxRetries r0 s :
  (forall x, (m (snd (op x)) <= m x + c)%nat) ->
  (m (snd (snd (try.Do MaxRetries (retrying op) (r0, s))))
   <= m s + attempts_bound MaxRetries * c)%nat.
Proof.
  intros Hstep. unfold try.Do, attempts_bound.
  destruct (loop_retrying_final (Z.to_nat (MaxRetries - 1)) 1 r0 s)
    as (k & sk & Hle & Hk & ->).
  pose proof (Hstep sk). pose proof (after_failures_adds_at_most c k s sk Hstep Hk).
  nia.
Qed.
End Measures.

Lemma logins_app l1 l2 : logins (l1 ++ l2) = (logins l1 + logins l2)%nat.
Proof. unfold logins. rewrite filter_app, length_app. reflexivity. Qed.

Lemma logins_under_session sid rest : Forall (under_session sid) rest -> logins rest = O.
Proof.
  unfold logins. induction 1 as [|c rest [Hm _] _ IH]; [reflexivity|].
  rewrite filter_cons_False by exact Hm. exact IH.
Qed.

Lemma logins_login_request config rest :
  logins (login_request config :: rest) = S (logins rest).
Proof. unfold logins. rewrite filter_cons_True by reflexivity. reflexivity. Qed.

Section Counts.
Context {W : Type}.
Variable client : SoapClient W.
Variable config : Config.
Variable MaxRetries : Z.
Implicit Types s : Process W.

Lemma attempt_of_logins s s' :
  attempt_of client config s s' -> logins (wire s') = (logins (wire s) + 1)%nat.
Proof.
  intros (rest & -> & Hrest). rewrite send_all_wire, logins_app, logins_login_request.
  destruct (login client (SDMUsername config) (SDMPassword config) s) as [[e|l] s1].
  - subst rest. reflexivity.
  - rewrite (logins_under_session _ _ Hrest). reflexivity.
Qed.

Lemma openTicket_length description summary pcat s :
  (length (wire (snd (openTicket client config description summary pcat s)))
   <= length (wire s) + 3)%nat.
Proof.
  destruct (openTicket_wire client config description summary pcat s) as (calls & -> & H).
  rewrite length_app. apply Nat.add_le_mono_l.
  destruct (fst (openTicket client config description summary pcat s)).
  - destruct H as (sid & handle & Hp). apply prefix_length in Hp. exact Hp.
  - destruct H as (l & h & s1 & s2 & _ & _ & ->). reflexivity.
Qed.

Lemma closeTicket_length objectHandle s :
  (length (wire (snd (closeTicket client config objectHandle s))) <= length (wire s) + 3)%nat.
Proof.
  destruct (closeTicket_wire client config objectHandle s) as (calls & -> & H).
  rewrite length_app. apply Nat.add_le_mono_l.
  destruct (fst (closeTicket client config objectHandle s)).
  - destruct H as (sid & Hp). apply prefix_length in Hp. simpl in Hp. lia.
  - destruct H as (l & s1 & _ & ->). simpl. lia.
Qed.

(** X12.  One event costs at most [max 1 MaxRetries] attempts: the handler
    sends at most that many logins and at most three times as many
    requests in all, whatever the backend does; an OPEN event costs at
    least one login, also under a bound of zero or less. *)
Theorem requests_per_event (body : Err + Problem) s :
  (logins (wire (snd (SDMHandler client config MaxRetries body s)))
   <= logins (wire s) + attempts_bound MaxRetries)%nat /\
  (length (wire (snd (SDMHandler client config MaxRetries body s)))
   <= length (wire s) + 3 * attempts_bound MaxRetries)%nat /\
  (forall problem,
      body = inr problem -> State problem = "OPEN" ->
      (logins (wire s) + 1
       <= logins (wire (snd (SDMHandler client config MaxRetries body s))))%nat).
Proof.
  destruct body as [e|problem].
  { simpl. repeat split; try lia. intros ? [=]. }
  unfold SDMHandler.
  destruct (decide (State problem = "OPEN")) as [Hopen|Hno].
  - pose proof (Do_retrying_adds
                  (openTicket client config (ProblemDetailsText problem) (title problem)
                     (Pcat problem))
                  (fun x => logins (wire x)) 1 MaxRetries None s
                  (fun x => attempt_of_logins _ _ (openTicket_attempt client config _ _ _ x)))
      as [Hlow Hup].
    pose proof (Do_retrying_adds_at_most
                  (openTicket client config (ProblemDetailsText problem) (title problem)
                     (Pcat problem))
                  (fun x => length (wire x)) 3 MaxRetries None s
                  (fun x => openTicket_length _ _ _ x)) as Hlen.
    destruct (try.Do MaxRetries _ (None, s)) as [[e|] [[ticket|] s1]]; cbn [fst snd] in *;
      try (repeat split; try lia; intros; lia).
    destruct (storeNewProblem problem ticket s1) as [s2|] eqn:Hstore; cbn [snd];
      [ apply storeNewProblem_Some in Hstore; destruct Hstore as (_ & [_ Hw2] & _);
        rewrite Hw2 | ];
      repeat split; try lia; intros; lia.
  - destruct (decide (State problem = "RESOLVED")) as [Hres|Hnr].
    2:{ simpl. repeat split; try lia. intros ? [= <-] ?. contradiction. }
    pose proof (getTicketNumberFromStorage_state problem s) as [[_ Hw] _].
    destruct (getTicketNumberFromStorage problem s) as [[ticket|] s1]; cbn [fst snd] in *.
    2:{ rewrite Hw. repeat split; try lia. intros ? [= <-] ?. contradiction. }
    pose proof (Do_retrying_adds
                  (closeTicket client config (NewRequestHandle ticket))
                  (fun x => logins (wire x)) 1 MaxRetries None s1
                  (fun x => attempt_of_logins _ _ (closeTicket_attempt client config _ x)))
      as [Hlow Hup].
    pose proof (Do_retrying_adds_at_most
                  (closeTicket client config (NewRequestHandle ticket))
                  (fun x => length (wire x)) 3 MaxRetries None s1
                  (fun x => closeTicket_length _ x)) as Hlen.
    cbv beta in *. rewrite Hw in *.
    destruct (try.Do MaxRetries _ (None, s1)) as [[e|] [r s2]]; cbn [fst snd] in *;
      repeat split; try lia; intros ? [= <-] ?; contradiction.
Qed.
End Counts.

(** A dead backend under a bound of zero: still one login. *)
Lemma requests_per_event_witness :
  (logins (wire (boot Absent)) + 1
   <= logins (wire (snd (SDMHandler down cfg0 0 (inr P1_open) (boot Absent)))))%nat.
Proof.
  apply (proj2 (proj2 (requests_per_event down cfg0 0 (inr P1_open) (boot Absent))) P1_open);
    reflexivity.
Defined.

Section Journeys.
Context {W : Type}.
Variable client : SoapClient W.
Variable config : Config.
Variable MaxRetries : Z.
Implicit Types s : Process W.

Local Abbreviation create problem :=
  (openTicket client config (ProblemDetailsText problem) (title problem) (Pcat problem)).

Lemma serve_all_keeps_entry (bodies : list (Err + Problem)) s pid :
  Forall (fun body => forall problem,
              body = inr problem -> State problem = "OPEN" -> ProblemID problem <> pid)
    bodies ->
  mapping (storage_json (serve_all client config MaxRetries bodies s)) !! pid
  = mapping (storage_json s) !! pid.
Proof.
  intros Hall. revert s. induction Hall as [|body bodies Hbody _ IH]; intros s;
    [reflexivity|].
  unfold serve_all in *. simpl. rewrite IH.
  apply SDMHandler_keeps_entry, Hbody.
Qed.

(** X13.  On an OPEN event the handler makes as many attempts as it takes
    and not one more: when the create flow fails [k < MaxRetries] times and
    then succeeds, exactly [k + 1] logins go out and nothing is sent after
    the [createRequest] that succeeded; when it fails [MaxRetries >= 1]
    times in a row, exactly [MaxRetries] logins go out. *)
Theorem attempts_made_for_open_event (problem : Problem) s :
  State problem = "OPEN" ->
  (forall k sk ticket s',
      Z.of_nat k < MaxRetries ->
      after_failures (create problem) k s = Some sk ->
      create problem sk = (inr ticket, s') ->
      wire (snd (SDMHandler client config MaxRetries (inr problem) s)) = wire s' /\
      backend (snd (SDMHandler client config MaxRetries (inr problem) s)) = backend s' /\
      logins (wire (snd (SDMHandler client config MaxRetries (inr problem) s)))
      = (logins (wire s) + k + 1)%nat) /\
  (forall s',
      1 <= MaxRetries ->
      after_failures (create problem) (Z.to_nat MaxRetries) s = Some s' ->
      logins (wire (snd (SDMHandler client config MaxRetries (inr problem) s)))
      = (logins (wire s) + Z.to_nat MaxRetries)%nat).
Proof.
  intros Hopen.
  assert (forall x, logins (wire (snd (create problem x))) = (logins (wire x) + 1)%nat)
    as Hstep.
  { intros x. apply (attempt_of_logins client config), openTicket_attempt. }
  split.
  - intros k sk ticket s' Hlt Hk Hop.
    destruct (SDMHandler_open_succeeded client config MaxRetries problem s k sk ticket s'
                Hopen Hlt Hk Hop) as [-> _].
    assert (wire (snd (match storeNewProblem problem ticket s' with
                       | Some s2 =>
                           (Wrote StatusOK
                              {| Error := false;
                                 Message := "Opened ticket: " +:+ NewRequestNumber ticket |},
                            s2)
                       | None => (Panic "assignment to entry in nil map", s')
                       end)) = wire s' /\
            backend (snd (match storeNewProblem problem ticket s' with
                          | Some s2 =>
                              (Wrote StatusOK
                                 {| Error := false;
                                    Message := "Opened ticket: "
                                               +:+ NewRequestNumber ticket |}, s2)
                          | None => (Panic "assignment to entry in nil map", s')
                          end)) = backend s') as [Hw Hb].
    { destruct (storeNewProblem problem ticket s') as [s2|] eqn:Hstore; cbn [snd];
        [|split; reflexivity].
      destruct (storeNewProblem_Some problem ticket s' s2 Hstore) as (_ & [Hb Hw] & _).
      auto. }
    rewrite Hw, Hb. repeat split.
    pose proof (Hstep sk) as H1. rewrite Hop in H1. cbn [snd] in H1. rewrite H1.
    rewrite (after_failures_adds (create problem) (fun x => logins (wire x)) 1 k s sk
               Hstep Hk).
    lia.
  - intros s' Hge Hk.
    rewrite (SDMHandler_open_exhausted client config MaxRetries problem s s' Hopen Hge Hk).
    cbn [snd].
    rewrite (after_failures_adds (create problem) (fun x => logins (wire x)) 1 _ s s'
               Hstep Hk).
    lia.
Qed.

(** X14.  A ticket opened for a problem is the ticket closed for it: after
    an OPEN event, on a [storage.json] that does not decode to a [nil] map,
    whose create flow succeeded with [ticket], and after any events in
    between that do not open the same problemID again, a RESOLVED event of
    that problemID whose close flow succeeds is answered with
    [Closed ticket: <number>] of that ticket, and the [updateObject] that
    closes it is sent for the handle [createRequest] returned. *)
Theorem ticket_opened_is_ticket_closed
    (p q : Problem) (bodies : list (Err + Problem)) s s1
    (k : nat) (sk : Process W) (ticket : CreateRequestResponse) (s' : Process W)
    (j : nat) (sj : Process W) (closed : UpdateObjectResponse) (s'' : Process W) :
  storage_json s <> NilDocument ->
  State p = "OPEN" ->
  Z.of_nat k < MaxRetries ->
  after_failures (create p) k s = Some sk ->
  create p sk = (inr ticket, s') ->
  Forall (fun body => forall problem,
              body = inr problem -> State problem = "OPEN" ->
              ProblemID problem <> ProblemID p) bodies ->
  s1 = serve_all client config MaxRetries bodies
         (snd (SDMHandler client config MaxRetries (inr p) s)) ->
  State q = "RESOLVED" ->
  ProblemID q = ProblemID p ->
  Z.of_nat j < MaxRetries ->
  after_failures (closeTicket client config (NewRequestHandle ticket)) j s1 = Some sj ->
  closeTicket client config (NewRequestHandle ticket) sj = (inr closed, s'') ->
  fst (SDMHandler client config MaxRetries (inr q) s1)
  = Wrote StatusOK {| Error := false;
                      Message := "Closed ticket: " +:+ NewRequestNumber ticket |} /\
  exists l,
    wire (snd (SDMHandler client config MaxRetries (inr q) s1))
    = (wire sj ++ [ login_request config;
                    updateObject_request (LoginReturn l) (NewRequestHandle ticket) ])%list.
Proof.
  intros Hf Hopen Hlt Hk Hop Hbodies -> Hres Hid Hlt' Hj Hclose.
  set (s1 := serve_all client config MaxRetries bodies
               (snd (SDMHandler client config MaxRetries (inr p) s))) in *.
  assert (mapping (storage_json s1) !! ProblemID q = Some ticket) as Hentry.
  { unfold s1. rewrite Hid, (serve_all_keeps_entry bodies _ (ProblemID p) Hbodies).
    rewrite (SDMHandler_opened client config MaxRetries p s k sk ticket s'
               Hopen Hlt Hk Hop Hf).
    cbn [snd storage_json]. rewrite mapping_Document. apply lookup_insert_eq. }
  rewrite (SDMHandler_resolved_found client config MaxRetries q ticket s1 Hres Hentry).
  rewrite (Do_retrying_success _ MaxRetries None j s1 sj closed s'' Hlt' Hj Hclose).
  cbn [fst snd]. split; [reflexivity|].
  destruct (closeTicket_success client config (NewRequestHandle ticket) sj closed s'' Hclose)
    as (l & sl & _ & Hw).
  exists l. exact Hw.
Qed.
End Journeys.

(** Four refused calls, then the ticket: five logins. *)
Lemma attempts_made_for_open_event_witness :
  logins (wire (snd (SDMHandler (flaky 4) cfg0 50 (inr P1_open) (boot Absent))))
  = (logins (wire (boot Absent)) + 4 + 1)%nat.
Proof.
  apply (proj1 (attempts_made_for_open_event (flaky 4) cfg0 50 P1_open (boot Absent)
                  ltac:(reflexivity))
           4%nat (state_after (open_P1 (flaky 4)) 4 (boot Absent)) INC001
           (snd (open_P1 (flaky 4) (state_after (open_P1 (flaky 4)) 4 (boot Absent))))).
  - lia.
  - vm_compute. reflexivity.
  - vm_compute. reflexivity.
Defined.

(** P1 is opened, P2 is resolved without a ticket and a MERGED event comes
    in, then P1 is resolved. *)
Lemma ticket_opened_is_ticket_closed_witness :
  fst (SDMHandler healthy cfg0 50 (inr P1_resolved)
         (serve_all healthy cfg0 50 [inr P2_resolved; inr P3_merged]
            (snd (SDMHandler healthy cfg0 50 (inr P1_open) (boot Absent)))))
  = Wrote StatusOK {| Error := false; Message := "Closed ticket: INC001" |}.
Proof.
  apply (ticket_opened_is_ticket_closed healthy cfg0 50 P1_open P1_resolved
           [inr P2_resolved; inr P3_merged] (boot Absent)
           (serve_all healthy cfg0 50 [inr P2_resolved; inr P3_merged]
              (snd (SDMHandler healthy cfg0 50 (inr P1_open) (boot Absent))))
           0%nat (boot Absent) INC001 (snd (open_P1 healthy (boot Absent)))
           0%nat
           (serve_all healthy cfg0 50 [inr P2_resolved; inr P3_merged]
              (snd (SDMHandler healthy cfg0 50 (inr P1_open) (boot Absent))))
           {| UpdateObjectReturn := "1" |}
           (snd (close_H1 healthy
                   (serve_all healthy cfg0 50 [inr P2_resolved; inr P3_merged]
                      (snd (SDMHandler healthy cfg0 50 (inr P1_open) (boot Absent))))))).
  - discriminate.
  - reflexivity.
  - lia.
  - reflexivity.
  - vm_compute. reflexivity.
  - repeat constructor; intros problem [= <-]; discriminate.
  - reflexivity.
  - reflexivity.
  - reflexivity.
  - lia.
  - reflexivity.
  - vm_compute. reflexivity.
Defined.

(** ** The earlier revision *)

(** Run the create flow of [part_000]. *)
Ltac run_flow_0 :=
  unfold part_000.openTicket, part_000.createRequest, openTicket, login, getHandle,
    createRequest, bind, client_Call, client_Unmarshal;
  repeat (simpl;
          match goal with
          | |- context [Call ?c ?m ?p ?w] =>
              let e := fresh "e" in let w1 := fresh "w" in
              destruct (Call c m p w) as [[e|] w1]
          | |- context [Unmarshal_LoginResponse ?c ?w] =>
              destruct (Unmarshal_LoginResponse c w) as [?|[?]]
          | |- context [Unmarshal_GetHandleForUserIDResponse ?c ?w] =>
              destruct (Unmarshal_GetHandleForUserIDResponse c w) as [?|[?]]
          | |- context [Unmarshal_CreateRequestResponse ?c ?w] =>
              destruct (Unmarshal_CreateRequestResponse c w) as [?|?]
          end);
  simpl.

Section Revision.
Context {W : Type}.
Variable client : SoapClient W.
Variable decode0 : W -> Err + part_000.CreateRequestResponse.
Variable config : Config.
Variable MaxRetries : Z.
Implicit Types s : Process W.

Lemma openTicket_0_storage description summary s :
  storage_json (snd (part_000.openTicket client decode0 config description summary s))
  = storage_json s.
Proof.
  run_flow_0; repeat match goal with |- context [decode0 ?w] => destruct (decode0 w) end;
    reflexivity.
Qed.

Lemma openTicket_0_logins description summary s :
  logins (wire (snd (part_000.openTicket client decode0 config description summary s)))
  = (logins (wire s) + 1)%nat.
Proof.
  run_flow_0; repeat match goal with |- context [decode0 ?w] => destruct (decode0 w) end;
    simpl; rewrite <- ?app_assoc; simpl; rewrite logins_app; unfold logins;
    rewrite filter_cons_True by reflexivity;
    rewrite ?filter_cons_False by discriminate; reflexivity.
Qed.

(** X15.  The create flow of the earlier revision is the create flow of
    [webhook.go] for the category 400373 and the user testedeconformidade:
    when that user is the configured one, both send the same requests and
    leave the backend in the same state. *)
Theorem create_flow_of_earlier_revision description summary s :
  SDMUsername config = "testedeconformidade" ->
  snd (part_000.openTicket client decode0 config description summary s)
  = snd (openTicket client config description summary "400373" s).
Proof.
  intros Huser. unfold part_000.openTicket, openTicket. rewrite Huser.
  change ("pcat:" +:+ "400373") with "pcat:400373".
  run_flow_0; repeat match goal with |- context [decode0 ?w] => destruct (decode0 w) end;
    reflexivity.
Qed.

(** X16.  The handler of the earlier revision opens a ticket for every
    request that decodes, whatever its state: it sends at least one login
    and at most [max 1 MaxRetries], never touches [storage.json], and
    answers either 200 with [Opened ticket: <number>] or 500 with the
    number of tries and the error of the retry package. *)
Theorem earlier_handler_opens_for_every_state (problem : part_000.Problem) s :
  storage_json (snd (part_000.SDMHandler client decode0 config MaxRetries (inr problem) s))
  = storage_json s /\
  (logins (wire s) + 1
   <= logins (wire (snd (part_000.SDMHandler client decode0 config MaxRetries
                           (inr problem) s))))%nat /\
  (logins (wire (snd (part_000.SDMHandler client decode0 config MaxRetries
                        (inr problem) s)))
   <= logins (wire s) + attempts_bound MaxRetries)%nat /\
  ((exists ticket,
       fst (part_000.SDMHandler client decode0 config MaxRetries (inr problem) s)
       = Wrote StatusOK
           {| Error := false;
              Message := "Opened ticket: " +:+ part_000.NewRequestNumber ticket |}) \/
   fst (part_000.SDMHandler client decode0 config MaxRetries (inr problem) s)
   = Wrote StatusInternalServerError
       {| Error := true;
          Message := "Could not open ticket after " +:+ itoa MaxRetries
                     +:+ " tries, error: exceeded retry limit" |}).
Proof.
  unfold part_000.SDMHandler.
  set (op := part_000.openTicket client decode0 config
               (part_000.ProblemDetailsText problem) (part_000.title problem)).
  pose proof (Do_retrying_respects op (fun x y => storage_json y = storage_json x)
                MaxRetries None s
                (fun x y z Hxy Hyz => eq_trans Hyz Hxy)
                (fun x => openTicket_0_storage _ _ x)) as Hst.
  pose proof (Do_retrying_adds op (fun x => logins (wire x)) 1 MaxRetries None s
                (fun x => openTicket_0_logins _ _ x)) as [Hlow Hup].
  destruct (Do_retrying_cases op MaxRetries None s)
    as [(ticket & s' & Hdo) | (s' & Hdo)]; rewrite Hdo in *; cbn [fst snd] in *.
  - repeat split; try assumption; try lia. left. exists ticket. reflexivity.
  - repeat split; try assumption; try lia. right. reflexivity.
Qed.
End Revision.

Lemma create_flow_of_earlier_revision_witness :
  snd (part_000.openTicket healthy
         (fun _ => inr {| part_000.CreateRequestReturn := "";
                          part_000.NewRequestHandle := "H1";
                          part_000.NewRequestNumber := "INC001" |})
         {| ListenerPort := 8080; LogLevel := "INFO"; SDMWSDL := "http://sdm/wsdl";
            SDMUsername := "testedeconformidade"; SDMPassword := "secret" |}
         "disk at 95%" "Disk full" (boot Absent))
  = snd (openTicket healthy
           {| ListenerPort := 8080; LogLevel := "INFO"; SDMWSDL := "http://sdm/wsdl";
              SDMUsername := "testedeconformidade"; SDMPassword := "secret" |}
           "disk at 95%" "Disk full" "400373" (boot Absent)).
Proof.
  apply (create_flow_of_earlier_revision healthy). reflexivity.
Defined.
